(** * Gatekeeper: port assignment against a NetBox registry

    A shallow embedding of [gatekeeper.py]: the MAC normalizer, the device
    resolver with its four lookup strategies, the port allocator, the
    [request_port] orchestrator and the [/health] endpoint, followed by the
    properties of the specification that concern them.

    Python values are modelled as follows.
    - [str] is [string]; a character is a code point below 256.
    - a JSON value held by a custom field is a [pyval].
    - a [dict] with string keys is a [gmap string _].
    - an exception is a constructor of [exn]; a function that can raise
      returns a [result].  Log lines and message texts are left out.
    - the registry behind [pynetbox] is a record [netbox] holding the stored
      objects together with the exception, if any, that each endpoint
      raises when it is called. *)

From Stdlib Require Import ZArith Ascii String List Bool Lia.
From stdpp Require Import base option list gmap strings.

Import ListNotations.
Local Open Scope Z_scope.
Local Open Scope string_scope.
Local Open Scope list_scope.

(** ** Exceptions and results *)

Inductive exn : Type :=
| ValueError
| RuntimeError
| AttributeError
| RequestError
| ConnectionError
| HTTPException (status_code : Z).

Inductive result (A : Type) : Type :=
| Ok (a : A)
| Raise (e : exn).

Arguments Ok {A} a.
Arguments Raise {A} e.

#[global] Instance result_ret : MRet result := fun A a => Ok a.

#[global] Instance result_bind : MBind result := fun A B k r =>
  match r with
  | Ok a => k a
  | Raise e => Raise e
  end.

(** [try: r except h] runs the handler on whatever [r] raises. *)
Definition try_except {A : Type} (r : result A) (h : exn -> result A) : result A :=
  match r with
  | Ok a => Ok a
  | Raise e => h e
  end.

Definition is_AttributeError (e : exn) : bool :=
  match e with AttributeError => true | _ => false end.

Definition HTTP_200_OK : Z := 200.
Definition HTTP_400_BAD_REQUEST : Z := 400.
Definition HTTP_500_INTERNAL_SERVER_ERROR : Z := 500.
Definition HTTP_503_SERVICE_UNAVAILABLE : Z := 503.

(** ** Strings *)

Module Str.

(** [chr(c).lower()] for a code point below 256: the letters [A]-[Z] and
    the Latin-1 capitals U+00C0-U+00DE (but not the sign U+00D7) move up
    by 32; everything else stays. *)
Definition lower_char (c : ascii) : ascii :=
  let n := N_of_ascii c in
  if ((65 <=? n) && (n <=? 90)
      || (192 <=? n) && (n <=? 222) && negb (n =? 215))%N
  then ascii_of_N (n + 32) else c.

Fixpoint lower (s : string) : string :=
  match s with
  | EmptyString => EmptyString
  | String c s' => String (lower_char c) (lower s')
  end.

(** [s.replace(c, '')] for a one-character [c]. *)
Fixpoint remove_char (c : ascii) (s : string) : string :=
  match s with
  | EmptyString => EmptyString
  | String a s' =>
      if Ascii.eqb a c then remove_char c s' else String a (remove_char c s')
  end.

(** [s[i:j]] for non-negative [i] and [j]. *)
Definition slice (s : string) (i j : nat) : string :=
  String.substring i (j - i) s.

(** [range(start, stop, step)] for a positive [step]. *)
Fixpoint range_fuel (fuel start stop step : nat) : list nat :=
  match fuel with
  | O => []
  | S fuel' =>
      if (start <? stop)%nat
      then start :: range_fuel fuel' (start + step) stop step
      else []
  end.

Definition range (start stop step : nat) : list nat :=
  range_fuel stop start stop step.

(** [sep.join(parts)]. *)
Definition join (sep : string) (parts : list string) : string :=
  String.concat sep parts.

Definition is_separator (c : ascii) : bool :=
  Ascii.eqb c ":" || Ascii.eqb c "-" || Ascii.eqb c ".".

(** The characters of [s] that are not [:], [-] or [.], in order. *)
Fixpoint strip_separators (s : string) : string :=
  match s with
  | EmptyString => EmptyString
  | String a s' =>
      if is_separator a then strip_separators s'
      else String a (strip_separators s')
  end.

Fixpoint all_chars (P : ascii -> bool) (s : string) : bool :=
  match s with
  | EmptyString => true
  | String a s' => P a && all_chars P s'
  end.

(** A character that lowering and stripping leave alone. *)
Definition canonical_char (c : ascii) : bool :=
  Ascii.eqb (lower_char c) c && negb (is_separator c).

(** [needle in hay]. *)
Fixpoint contains (needle hay : string) : bool :=
  String.prefix needle hay
  || match hay with
     | EmptyString => false
     | String _ hay' => contains needle hay'
     end.

End Str.

(** ** The MAC normalizer *)

Definition normalize_mac (mac : string) : result string :=
  let mac := Str.lower mac in
  let mac_clean :=
    Str.remove_char "." (Str.remove_char "-" (Str.remove_char ":" mac)) in
  if negb (String.length mac_clean =? 12)%nat then Raise ValueError
  else Ok (Str.join ":" (map (fun i => Str.slice mac_clean i (i + 2))
                             (Str.range 0 12 2))).

(** ** Registry data *)

(** A value read from a custom field. *)
Inductive pyval : Type :=
| PNone
| PBool (b : bool)
| PInt (z : Z)
| PStr (s : string).

(** [bool(v)]. *)
Definition truthy (v : pyval) : bool :=
  match v with
  | PNone => false
  | PBool b => b
  | PInt z => negb (Z.eqb z 0)
  | PStr s => negb (String.eqb s "")
  end.

(** [isinstance(v, int)]; [bool] is a subclass of [int]. *)
Definition isinstance_int (v : pyval) : bool :=
  match v with
  | PBool _ | PInt _ => true
  | PNone | PStr _ => false
  end.

(** The integer that an instance of [int] stands for ([True] is [1]). *)
Definition int_value (v : pyval) : Z :=
  match v with
  | PInt z => z
  | PBool true => 1
  | _ => 0
  end.

(** [d.get(key)]. *)
Definition dict_get (key : string) (d : gmap string pyval) : pyval :=
  default PNone (d !! key).

Record device : Type := Device {
  dev_id : Z;
  dev_name : option string;
  dev_device_type : string;
  dev_role : string;
  dev_site : string;
  dev_status : string;
  custom_fields : gmap string pyval
}.

Definition set_custom_fields (d : device) (cf : gmap string pyval) : device :=
  {| dev_id := dev_id d; dev_name := dev_name d;
     dev_device_type := dev_device_type d; dev_role := dev_role d;
     dev_site := dev_site d; dev_status := dev_status d;
     custom_fields := cf |}.

(** An interface, with the id of the device it belongs to when it has one. *)
Record interface : Type := Interface {
  if_mac_address : option string;
  if_device : option Z
}.

(** A first-class MAC address object (NetBox 4.0 and later). *)
Record mac_object : Type := MacObject {
  mo_mac_address : string;
  assigned_object : option interface
}.

(** The registry as the client sees it: the stored objects, and for each
    endpoint the exception it raises, if any. *)
Record netbox : Type := Netbox {
  devices : list device;
  interfaces : list interface;
  mac_addresses : list mac_object;
  mac_addresses_raises : option exn;
  interfaces_raises : option exn;
  devices_filter_raises : option exn;
  devices_all_raises : option exn;
  devices_get_raises : option exn;
  devices_create_raises : option exn;
  save_raises : option exn
}.

Definition set_devices (nb : netbox) (ds : list device) : netbox :=
  {| devices := ds; interfaces := interfaces nb;
     mac_addresses := mac_addresses nb;
     mac_addresses_raises := mac_addresses_raises nb;
     interfaces_raises := interfaces_raises nb;
     devices_filter_raises := devices_filter_raises nb;
     devices_all_raises := devices_all_raises nb;
     devices_get_raises := devices_get_raises nb;
     devices_create_raises := devices_create_raises nb;
     save_raises := save_raises nb |}.

Definition DEFAULT_START_PORT : Z := 10001.
Definition CUSTOM_FIELD_NAME : string := "automation_proxy_port".

(** ** Registry endpoints

    The registry is not part of the program: what follows is the part of
    [nb.dcim] that the program calls, with the behaviour the program relies
    on.  A filter keeps the stored objects whose field equals the query, in
    stored order; [get] looks a device up by id; [create] stores a record
    under an id larger than all others; a call raises when the endpoint is
    marked so, and then changes nothing. *)

Module Dcim.

Definition answer {A : Type} (raises : option exn) (a : A) : result A :=
  match raises with
  | Some e => Raise e
  | None => Ok a
  end.

(** [nb.dcim.mac_addresses.filter(mac_address=mac)]. *)
Definition mac_addresses_filter (nb : netbox) (mac : string)
  : result (list mac_object) :=
  answer (mac_addresses_raises nb)
    (List.filter (fun o => String.eqb (mo_mac_address o) mac) (mac_addresses nb)).

(** [nb.dcim.interfaces.filter(mac_address=mac)]. *)
Definition interfaces_filter (nb : netbox) (mac : string)
  : result (list interface) :=
  answer (interfaces_raises nb)
    (List.filter
       (fun i => match if_mac_address i with
                 | Some m => String.eqb m mac
                 | None => false
                 end)
       (interfaces nb)).

Definition cf_mac_address_is (mac : string) (d : device) : bool :=
  match custom_fields d !! "mac_address" with
  | Some (PStr m) => String.eqb m mac
  | _ => false
  end.

(** [nb.dcim.devices.filter(cf_mac_address=mac)]. *)
Definition devices_filter (nb : netbox) (mac : string) : result (list device) :=
  answer (devices_filter_raises nb)
    (List.filter (cf_mac_address_is mac) (devices nb)).

(** [nb.dcim.devices.all()]. *)
Definition devices_all (nb : netbox) : result (list device) :=
  answer (devices_all_raises nb) (devices nb).

(** [nb.dcim.devices.get(id)]: [None] when no device has this id. *)
Definition devices_get (nb : netbox) (i : Z) : result (option device) :=
  answer (devices_get_raises nb)
    (List.find (fun d => Z.eqb (dev_id d) i) (devices nb)).

Definition fresh_id (ds : list device) : Z :=
  fold_right (fun d acc => Z.max (dev_id d) acc) 0 ds + 1.

(** [nb.dcim.devices.create(name=.., device_type=.., role=.., site=..,
    status=.., custom_fields=..)]: the record is stored under a fresh id,
    after the others. *)
Definition devices_create (nb : netbox) (name device_type role site status : string)
    (cf : gmap string pyval) : result (device * netbox) :=
  let d := {| dev_id := fresh_id (devices nb); dev_name := Some name;
              dev_device_type := device_type; dev_role := role;
              dev_site := site; dev_status := status;
              custom_fields := cf |} in
  answer (devices_create_raises nb) (d, set_devices nb (devices nb ++ [d])).

(** The stored records after [record], whose custom fields were changed
    locally, was saved: the record with the same id takes the custom fields
    of [record]. *)
Definition saved (record : device) (ds : list device) : list device :=
  map (fun d => if Z.eqb (dev_id d) (dev_id record)
                then set_custom_fields d (custom_fields record)
                else d) ds.

(** [record.save()]; the registry refuses an id it does not hold. *)
Definition save (nb : netbox) (record : device) : result netbox :=
  match save_raises nb with
  | Some e => Raise e
  | None =>
      if existsb (fun d => Z.eqb (dev_id d) (dev_id record)) (devices nb)
      then Ok (set_devices nb (saved record (devices nb)))
      else Raise RequestError
  end.

End Dcim.

(** ** The port allocator *)

(** The body of the loop of [get_max_assigned_port]. *)
Definition max_port_step (max_port : Z) (device : device) : Z :=
  let port := dict_get CUSTOM_FIELD_NAME (custom_fields device) in
  if truthy port && isinstance_int port
  then Z.max max_port (int_value port)
  else max_port.

Definition get_max_assigned_port (nb : option netbox) : result Z :=
  match nb with
  | None => Raise RuntimeError
  | Some nb =>
      devices ← Dcim.devices_all nb;
      mret (fold_left max_port_step devices (DEFAULT_START_PORT - 1))
  end.

(** ** The device resolver *)

(** What a block of the resolver does when it ends: it has returned a value
    from the function, or control falls through to the next statement. *)
Inductive flow (A : Type) : Type :=
| Return (a : A)
| Next.

Arguments Return {A} a.
Arguments Next {A}.

(** Strategy 1, the loop over the MAC address objects. *)
Fixpoint mac_objects_loop (nb : netbox) (mac_objs : list mac_object)
  : result (flow (option device)) :=
  match mac_objs with
  | [] => Ok Next
  | mac_obj :: rest =>
      match assigned_object mac_obj with
      | Some interface =>
          match if_device interface with
          | Some i => d ← Dcim.devices_get nb i; mret (Return d)
          | None => mac_objects_loop nb rest
          end
      | None => mac_objects_loop nb rest
      end
  end.

(** Strategy 2, the loop over the interfaces. *)
Fixpoint interfaces_loop (nb : netbox) (ifaces : list interface)
  : result (flow (option device)) :=
  match ifaces with
  | [] => Ok Next
  | interface :: rest =>
      match if_device interface with
      | Some i => d ← Dcim.devices_get nb i; mret (Return d)
      | None => interfaces_loop nb rest
      end
  end.

(** Strategy 4, the loop over all devices; [None.lower()] raises. *)
Fixpoint names_loop (mac_clean : string) (devs : list device)
  : result (option device) :=
  match devs with
  | [] => Ok None
  | d :: rest =>
      match dev_name d with
      | None => Raise AttributeError
      | Some name =>
          if Str.contains mac_clean
               (Str.remove_char "-" (Str.remove_char ":" (Str.lower name)))
          then Ok (Some d)
          else names_loop mac_clean rest
      end
  end.

(** The body of the first [try]: query the MAC address objects, follow the
    first one that leads to a device. *)
Definition mac_objects_lookup (nb : netbox) (mac : string)
  : result (flow (option device)) :=
  mac_objs ← Dcim.mac_addresses_filter nb mac; mac_objects_loop nb mac_objs.

(** The body of the second [try]: query the interfaces by their MAC field. *)
Definition interfaces_lookup (nb : netbox) (mac : string)
  : result (flow (option device)) :=
  ifaces ← Dcim.interfaces_filter nb mac; interfaces_loop nb ifaces.

(** [except AttributeError]: the registry has no MAC address objects. *)
Definition strategy1 (nb : netbox) (mac : string) : result (flow (option device)) :=
  try_except (mac_objects_lookup nb mac)
    (fun e => if is_AttributeError e then Ok Next else Raise e).

(** [except Exception]: whatever the lookup raises is logged and dropped. *)
Definition strategy2 (nb : netbox) (mac : string) : result (flow (option device)) :=
  try_except (interfaces_lookup nb mac) (fun _ => Ok Next).

Definition strategy3 (nb : netbox) (mac : string) : result (flow (option device)) :=
  devs ← Dcim.devices_filter nb mac;
  mret (match devs with
        | d :: _ => Return (Some d)
        | [] => Next
        end).

Definition strategy4 (nb : netbox) (mac : string) : result (option device) :=
  let mac_clean := Str.remove_char ":" mac in
  devs ← Dcim.devices_all nb;
  names_loop mac_clean devs.

Definition find_device_by_mac (nb : option netbox) (mac : string)
  : result (option device) :=
  match nb with
  | None => Raise RuntimeError
  | Some nb =>
      try_except
        (s1 ← strategy1 nb mac;
         match s1 with
         | Return d => Ok d
         | Next =>
             s2 ← strategy2 nb mac;
             match s2 with
             | Return d => Ok d
             | Next =>
                 s3 ← strategy3 nb mac;
                 match s3 with
                 | Return d => Ok d
                 | Next => strategy4 nb mac
                 end
             end
         end)
        (fun e => Raise e)
  end.

(** ** The orchestrator and the endpoints *)

Record PortResponse : Type := {
  mac : string;
  port : Z;
  existing : bool;
  device_name : option string;
  timestamp : string
}.

Record HealthResponse : Type := {
  status : string;
  netbox_connected : bool;
  health_timestamp : string
}.

(** The body of the [try] block of [request_port]: compute the next port and
    write it, on the resolved device when there is one, on a new pending
    device otherwise. *)
Definition assign_new_port (reg : netbox) (now mac_normalized : string)
    (existing_device : option device) : result (PortResponse * netbox) :=
  max_port ← get_max_assigned_port (Some reg);
  let new_port := max_port + 1 in
  let name := "probe-" +:+ Str.remove_char ":" mac_normalized in
  match existing_device with
  | Some d =>
      let d' := set_custom_fields d
                  (<[CUSTOM_FIELD_NAME := PInt new_port]> (custom_fields d)) in
      reg' ← Dcim.save reg d';
      mret ({| mac := mac_normalized; port := new_port; existing := false;
               device_name := dev_name d'; timestamp := now |}, reg')
  | None =>
      created ← Dcim.devices_create reg name "network-probe" "network-probe"
                  "pending" "planned" {[ CUSTOM_FIELD_NAME := PInt new_port ]};
      mret ({| mac := mac_normalized; port := new_port; existing := false;
               device_name := Some name; timestamp := now |}, created.2)
  end.

(** The [try] block with its handler: whatever it raises becomes a 500. *)
Definition try_assign_new_port (nb : option netbox) (reg : netbox)
    (now mac_normalized : string) (existing_device : option device)
  : result PortResponse * option netbox :=
  match assign_new_port reg now mac_normalized existing_device with
  | Ok (response, reg') => (Ok response, Some reg')
  | Raise _ => (Raise (HTTPException HTTP_500_INTERNAL_SERVER_ERROR), nb)
  end.

(** [request_port(mac)], run at time [now] against the global [nb]; the
    result comes with the state of [nb] after the call.  The [port] field of
    the response is an [int]: an existing port that is [True] is sent as 1. *)
Definition request_port (nb : option netbox) (now : string) (raw : string)
  : result PortResponse * option netbox :=
  match normalize_mac raw with
  | Raise ValueError => (Raise (HTTPException HTTP_400_BAD_REQUEST), nb)
  | Raise e => (Raise e, nb)
  | Ok mac_normalized =>
      match nb with
      | None => (Raise (HTTPException HTTP_503_SERVICE_UNAVAILABLE), nb)
      | Some reg =>
          match find_device_by_mac nb mac_normalized with
          | Raise e => (Raise e, nb)
          | Ok (Some d) =>
              let existing_port := dict_get CUSTOM_FIELD_NAME (custom_fields d) in
              if truthy existing_port && isinstance_int existing_port
              then (Ok {| mac := mac_normalized; port := int_value existing_port;
                          existing := true; device_name := dev_name d;
                          timestamp := now |}, nb)
              else try_assign_new_port nb reg now mac_normalized (Some d)
          | Ok None => try_assign_new_port nb reg now mac_normalized None
          end
      end
  end.

(** [health_check()]. *)
Definition health_check (nb : option netbox) (now : string) : result HealthResponse :=
  Ok {| status := "healthy";
        netbox_connected := bool_decide (is_Some nb);
        health_timestamp := now |}.

(** What the application sends for the outcome of a handler: the value with
    status 200, the status of an [HTTPException], and 500 from
    [global_exception_handler] for anything else. *)
Definition respond {A : Type} (r : result A) : Z * option A :=
  match r with
  | Ok a => (HTTP_200_OK, Some a)
  | Raise (HTTPException code) => (code, None)
  | Raise _ => (HTTP_500_INTERNAL_SERVER_ERROR, None)
  end.

Definition GET_health (nb : option netbox) (now : string) : Z * option HealthResponse :=
  respond (health_check nb now).

Definition GET_request_port (nb : option netbox) (now raw : string)
  : (Z * option PortResponse) * option netbox :=
  let '(r, nb') := request_port nb now raw in (respond r, nb').

(** ** The event loop

    A handler is a coroutine: the loop runs it from one suspension point
    ([await]) to the next without running anything else in between.  A task
    is what remains to run; resuming it on the shared state either finishes
    with a value or stops at the next suspension point. *)

Inductive task (S A : Type) : Type :=
| Task (resume : S -> S * progress S A)
with progress (S A : Type) : Type :=
| Finished (a : A)
| Suspended (rest : task S A).

Arguments Task {S A} resume.
Arguments Finished {S A} a.
Arguments Suspended {S A} rest.

Definition resume {S A : Type} (t : task S A) : S -> S * progress S A :=
  match t with Task r => r end.

(** [request_port] is declared [async def] and awaits nothing; the registry
    calls in its body block.  Its task has no suspension point: once
    resumed it runs to its end. *)
Definition request_port_task (now raw : string)
  : task (option netbox) (result PortResponse) :=
  Task (fun nb => let '(r, nb') := request_port nb now raw in (nb', Finished r)).

Record loop_state : Type := LoopState {
  registry : option netbox;
  pending : list (task (option netbox) (result PortResponse));
  responses : list (result PortResponse)
}.

(** One turn of the loop: any pending task is resumed. *)
Inductive loop_step : loop_state -> loop_state -> Prop :=
| loop_finish nb nb' before t after rs r :
    resume t nb = (nb', Finished r) ->
    loop_step (LoopState nb (before ++ t :: after) rs)
              (LoopState nb' (before ++ after) (r :: rs))
| loop_suspend nb nb' before t t' after rs :
    resume t nb = (nb', Suspended t') ->
    loop_step (LoopState nb (before ++ t :: after) rs)
              (LoopState nb' (before ++ t' :: after) rs).

(** The same, for a given order: [picks] names the task to resume at each
    turn by its position among the pending ones. *)
Fixpoint run_loop (picks : list nat) (st : loop_state) : loop_state :=
  match picks with
  | [] => st
  | i :: picks' =>
      match pending st !! i with
      | None => run_loop picks' st
      | Some t =>
          let '(nb', out) := resume t (registry st) in
          run_loop picks'
            match out with
            | Finished r => LoopState nb' (delete i (pending st)) (r :: responses st)
            | Suspended t' => LoopState nb' (<[i := t']> (pending st)) (responses st)
            end
      end
  end.

(** ** Registry invariants *)

(** The port a device holds, as [request_port] reads it. *)
Definition assigned_port (d : device) : option Z :=
  let v := dict_get CUSTOM_FIELD_NAME (custom_fields d) in
  if truthy v && isinstance_int v then Some (int_value v) else None.

Definition assigned_ports (ds : list device) : list Z := omap assigned_port ds.

Definition port_uniqueness (nb : option netbox) : Prop :=
  match nb with
  | Some reg => NoDup (assigned_ports (devices reg))
  | None => True
  end.

(** Ids are the primary key of the device table. *)
Definition ids_unique (nb : option netbox) : Prop :=
  match nb with
  | Some reg => NoDup (map dev_id (devices reg))
  | None => True
  end.

(** An interface refers to a stored device. *)
Definition device_refs_ok_if (ds : list device) (i : interface) : Prop :=
  forall k, if_device i = Some k -> exists d, d ∈ ds /\ dev_id d = k.

Definition device_refs_ok (reg : netbox) : Prop :=
  Forall (device_refs_ok_if (devices reg)) (interfaces reg)
  /\ Forall (fun o => forall i, assigned_object o = Some i ->
                                device_refs_ok_if (devices reg) i)
            (mac_addresses reg).

(** ** The write path, spelled out *)

(** The port that [request_port] computes on its write path. *)
Definition new_port (reg : netbox) : Z :=
  fold_left max_port_step (devices reg) (DEFAULT_START_PORT - 1) + 1.

(** The pending device that [request_port] creates for [mac_normalized]. *)
Definition pending_device (reg : netbox) (mac_normalized : string) : device :=
  {| dev_id := Dcim.fresh_id (devices reg);
     dev_name := Some ("probe-" +:+ Str.remove_char ":" mac_normalized);
     dev_device_type := "network-probe"; dev_role := "network-probe";
     dev_site := "pending"; dev_status := "planned";
     custom_fields := {[ CUSTOM_FIELD_NAME := PInt (new_port reg) ]} |}.

(** The resolved device with the new port written on it. *)
Definition with_new_port (reg : netbox) (d : device) : device :=
  set_custom_fields d
    (<[CUSTOM_FIELD_NAME := PInt (new_port reg)]> (custom_fields d)).

(** The ports handed out by the calls that answered [existing = false]. *)
Definition allocated_ports (rs : list (result PortResponse)) : list Z :=
  omap (fun r => match r with
                 | Ok resp => if existing resp then None else Some (port resp)
                 | Raise _ => None
                 end) rs.

(** What holds of the loop at every turn when it serves port requests:
    the pending tasks are port requests, the stored ports and ids are
    pairwise distinct, and the ports handed out so far are pairwise distinct
    and below the next port. *)
Definition loop_invariant (st : loop_state) : Prop :=
  Forall (fun t => exists now raw, t = request_port_task now raw) (pending st)
  /\ port_uniqueness (registry st)
  /\ ids_unique (registry st)
  /\ NoDup (allocated_ports (responses st))
  /\ forall p, p ∈ allocated_ports (responses st) ->
                exists reg, registry st = Some reg /\ p < new_port reg.

(** ** Sample registries *)

Definition probe (i : Z) (name : string) (cf : gmap string pyval) : device :=
  {| dev_id := i; dev_name := Some name;
     dev_device_type := "network-probe"; dev_role := "network-probe";
     dev_site := "lab"; dev_status := "active"; custom_fields := cf |}.

Definition with_port (p : pyval) : gmap string pyval :=
  {[ CUSTOM_FIELD_NAME := p ]}.

(** A registry that answers every call. *)
Definition serving (ds : list device) (ifs : list interface) (ms : list mac_object)
  : netbox :=
  {| devices := ds; interfaces := ifs; mac_addresses := ms;
     mac_addresses_raises := None; interfaces_raises := None;
     devices_filter_raises := None; devices_all_raises := None;
     devices_get_raises := None; devices_create_raises := None;
     save_raises := None |}.

Definition three_probes : netbox :=
  serving [probe 1 "probe-020000000001" (with_port (PInt 10001));
           probe 2 "probe-020000000002" (with_port (PInt 10002));
           probe 3 "probe-020000000005" (with_port (PInt 10005))] [] [].

Definition empty_registry : netbox := serving [] [] [].

(** A registry of the older schema: it has no MAC address objects, the
    interfaces carry the MAC. *)
Definition legacy : netbox :=
  {| devices := [probe 1 "core-sw-01" (with_port (PInt 10001));
                 probe 2 "edge-probe" (with_port (PInt 10002))];
     interfaces := [{| if_mac_address := Some "aa:bb:cc:dd:ee:ff";
                       if_device := Some 2 |}];
     mac_addresses := [];
     mac_addresses_raises := Some AttributeError; interfaces_raises := None;
     devices_filter_raises := None; devices_all_raises := None;
     devices_get_raises := None; devices_create_raises := None;
     save_raises := None |}.

(** A registry whose interface endpoint fails. *)
Definition flaky_interfaces : netbox :=
  {| devices := [probe 1 "core-sw-01" (with_port (PInt 10001))];
     interfaces := [{| if_mac_address := Some "aa:bb:cc:dd:ee:ff";
                       if_device := Some 1 |}];
     mac_addresses := [];
     mac_addresses_raises := None; interfaces_raises := Some ConnectionError;
     devices_filter_raises := None; devices_all_raises := None;
     devices_get_raises := None; devices_create_raises := None;
     save_raises := None |}.

(** A registry whose MAC address endpoint fails. *)
Definition flaky_mac_addresses : netbox :=
  {| devices := [probe 1 "core-sw-01" (with_port (PInt 10001))];
     interfaces := [];
     mac_addresses := [];
     mac_addresses_raises := Some ConnectionError; interfaces_raises := None;
     devices_filter_raises := None; devices_all_raises := None;
     devices_get_raises := None; devices_create_raises := None;
     save_raises := None |}.

(** Two requests for distinct MACs waiting on the loop. *)
Definition two_requests : loop_state :=
  LoopState (Some three_probes)
    (map (fun c => request_port_task c.1 c.2)
       [("2026-01-01T00:00:00", "aa:bb:cc:dd:ee:01");
        ("2026-01-01T00:00:00", "aa:bb:cc:dd:ee:02")])
    [].

(** A probe registered by hand, without a port. *)
Definition unprovisioned : netbox :=
  serving [probe 1 "probe-020000000001" (with_port (PInt 10001));
           probe 7 "rack4-AA-BB-CC-DD-EE-FF" ∅] [] [].

(** A probe whose port attribute holds a string. *)
Definition mistyped : netbox :=
  serving [probe 1 "probe-020000000001" (with_port (PInt 10001));
           probe 7 "probe-aabbccddeeff" (with_port (PStr "10050"))] [] [].

(** ** The specification's wording, for comparison *)

Module Spec.

Definition is_hex_digit (c : ascii) : bool :=
  let n := N_of_ascii c in
  ((48 <=? n) && (n <=? 57) || (97 <=? n) && (n <=? 102))%N.

Fixpoint keep_hex (s : string) : string :=
  match s with
  | EmptyString => EmptyString
  | String c s' =>
      if is_hex_digit c then String c (keep_hex s') else keep_hex s'
  end.

Fixpoint colons (s : string) : string :=
  match s with
  | String a (String b ((String _ _) as rest)) =>
      String a (String b (String ":" (colons rest)))
  | _ => s
  end.

(** Lowercase, strip what is not a hexadecimal digit, require twelve
    digits, re-insert a colon every two characters. *)
Definition normalize (raw : string) : result string :=
  let digits := keep_hex (Str.lower raw) in
  if (String.length digits =? 12)%nat then Ok (colons digits)
  else Raise ValueError.

(** The port attribute of a record when it is an integer. *)
Definition port_attribute (d : device) : option Z :=
  match custom_fields d !! CUSTOM_FIELD_NAME with
  | Some (PInt z) => Some z
  | _ => None
  end.

(** The maximum of the defined port attributes; none when no record has
    one. *)
Definition observed_max (ds : list device) : option Z :=
  foldr (fun d acc =>
           match port_attribute d, acc with
           | Some p, Some m => Some (Z.max p m)
           | Some p, None => Some p
           | None, _ => acc
           end) None ds.

(** [max(observed_max, floor - 1) + 1]. *)
Definition next_port (floor : Z) (ds : list device) : Z :=
  match observed_max ds with
  | Some m => Z.max m (floor - 1) + 1
  | None => floor - 1 + 1
  end.

End Spec.

(** A registry that holds a device without a name. *)
Definition with_nameless_device : netbox :=
  serving [probe 1 "core-sw-01" (with_port (PInt 10001));
           {| dev_id := 2; dev_name := None;
              dev_device_type := "patch-panel"; dev_role := "passive";
              dev_site := "lab"; dev_status := "active"; custom_fields := ∅ |};
           probe 3 "probe-aabbccddeeff" (with_port (PInt 10002))] [] [].

(** A registry that answers reads and refuses writes. *)
Definition read_only : netbox :=
  {| devices := [probe 1 "probe-020000000001" (with_port (PInt 10001));
                 probe 7 "rack4-AA-BB-CC-DD-EE-FF" ∅];
     interfaces := []; mac_addresses := [];
     mac_addresses_raises := None; interfaces_raises := None;
     devices_filter_raises := None; devices_all_raises := None;
     devices_get_raises := None; devices_create_raises := Some RequestError;
     save_raises := Some RequestError |}.

(** A registry that cannot be reached: whatever is stored behind it, every
    endpoint raises [ConnectionError]. *)
Definition unreachable : netbox :=
  {| devices := [probe 1 "probe-020000000001" (with_port (PInt 10001))];
     interfaces := []; mac_addresses := [];
     mac_addresses_raises := Some ConnectionError;
     interfaces_raises := Some ConnectionError;
     devices_filter_raises := Some ConnectionError;
     devices_all_raises := Some ConnectionError;
     devices_get_raises := Some ConnectionError;
     devices_create_raises := Some ConnectionError;
     save_raises := Some ConnectionError |}.

Definition endpoint_answers (raises : option exn) : bool :=
  match raises with
  | Some _ => false
  | None => true
  end.

(** The specification's wording for the flag of the health report, for
    comparison: the registry is reachable when there is a connection to it
    and at least one of its endpoints answers. *)
Definition reachable (nb : option netbox) : bool :=
  match nb with
  | None => false
  | Some reg =>
      endpoint_answers (mac_addresses_raises reg)
      || endpoint_answers (interfaces_raises reg)
      || endpoint_answers (devices_filter_raises reg)
      || endpoint_answers (devices_all_raises reg)
      || endpoint_answers (devices_get_raises reg)
      || endpoint_answers (devices_create_raises reg)
      || endpoint_answers (save_raises reg)
  end.

(** The test of strategy 4 on the name of a device. *)
Definition name_matches (mac_clean name : string) : bool :=
  Str.contains mac_clean
    (Str.remove_char "-" (Str.remove_char ":" (Str.lower name))).

(** * The scan parser ([scripts/parse_nmap.py]) *)

Module Nmap.

(** An element of the XML tree that [ET.parse] returns: its tag, its
    attributes and its children in document order. *)
#[local] Unset Elimination Schemes.
Inductive element : Type :=
| Element (tag : string) (attrib : gmap string string) (children : list element).
#[local] Set Elimination Schemes.

Definition tag (e : element) : string :=
  match e with Element t _ _ => t end.

Definition attrib (e : element) : gmap string string :=
  match e with Element _ a _ => a end.

Definition children (e : element) : list element :=
  match e with Element _ _ cs => cs end.

(** [e.iter()]: the element and all that is below it, in document order. *)
Fixpoint iter (e : element) : list element :=
  match e with
  | Element _ _ cs => e :: flat_map iter cs
  end.

(** The matches of the path [.//tag] from [e]: what is below [e] and has
    this tag. *)
Definition descendants (t : string) (e : element) : list element :=
  List.filter (fun x => String.eqb (tag x) t) (flat_map iter (children e)).

(** [e.find('tag')]: the first child with this tag. *)
Definition find_child (t : string) (e : element) : option element :=
  List.find (fun x => String.eqb (tag x) t) (children e).

(** [e.find('.//tag[@key="value"]')]. *)
Definition find_descendant_with (t key value : string) (e : element)
  : option element :=
  List.find (fun x => bool_decide (attrib x !! key = Some value))
    (descendants t e).

(** [e.find('.//tag')]. *)
Definition find_descendant (t : string) (e : element) : option element :=
  head (descendants t e).

(** [bool(v)] for a value that is [None] or a string. *)
Definition truthy (v : option string) : bool :=
  match v with
  | Some s => negb (String.eqb s "")
  | None => false
  end.

Record host_info : Type := HostInfo {
  h_ip : option string;
  h_mac : option string;
  h_hostname : option string;
  h_status : option string;
  h_vendor : option string
}.

(** The body of the loop of [parse_nmap_xml]: the entry for a host
    element, or nothing when the loop moves on without appending. *)
Definition host_entry (host : element) : option host_info :=
  let status := find_child "status" host ≫= fun e => attrib e !! "state" in
  if negb (bool_decide (status = Some "up")) then None
  else
    let ip := find_descendant_with "address" "addrtype" "ipv4" host
                ≫= fun e => attrib e !! "addr" in
    let mac_elem := find_descendant_with "address" "addrtype" "mac" host in
    let mac := mac_elem ≫= fun e => attrib e !! "addr" in
    let vendor := mac_elem ≫= fun e => attrib e !! "vendor" in
    let hostname := find_descendant "hostname" host
                      ≫= fun e => attrib e !! "name" in
    if truthy ip || truthy mac
    then Some {| h_ip := ip; h_mac := mac; h_hostname := hostname;
                 h_status := status; h_vendor := vendor |}
    else None.

(** [parse_nmap_xml], from the root of the parsed file. *)
Definition parse_nmap_xml (root : element) : list host_info :=
  omap host_entry (descendants "host" root).

(** The body of the loop of [format_for_netbox]. *)
Definition netbox_entry (tenant_slug : string) (host : host_info)
  : option (gmap string string) :=
  if negb (truthy (h_ip host)) then None
  else
    let entry : gmap string string :=
      {[ "address" := default "" (h_ip host) +:+ "/24";
         "tenant" := tenant_slug;
         "status" := "active";
         "description" := "Discovered via probe scan" ]} in
    let entry :=
      if truthy (h_hostname host)
      then <["dns_name" := default "" (h_hostname host)]> entry
      else entry in
    let entry :=
      if truthy (h_mac host)
      then <["description" := default "" (entry !! "description")
                               +:+ " (MAC: " +:+ default "" (h_mac host) +:+ ")"]>
             entry
      else entry in
    let entry :=
      if truthy (h_vendor host)
      then <["description" := default "" (entry !! "description")
                               +:+ " [" +:+ default "" (h_vendor host) +:+ "]"]>
             entry
      else entry in
    Some entry.

Definition format_for_netbox (hosts : list host_info) (tenant_slug : string)
  : list (gmap string string) :=
  omap (netbox_entry tenant_slug) hosts.

(** The hosts that have an address to import. *)
Definition with_ip (hosts : list host_info) : list host_info :=
  List.filter (fun h => truthy (h_ip h)) hosts.

(** A scan of three hosts: one up with both addresses and a name, one
    down, one up with a MAC only. *)
Definition sample_scan : element :=
  Element "nmaprun" ∅
    [Element "host" ∅
       [Element "status" {[ "state" := "up" ]} [];
        Element "address" {[ "addr" := "192.168.1.10"; "addrtype" := "ipv4" ]} [];
        Element "address" {[ "addr" := "AA:BB:CC:DD:EE:FF"; "addrtype" := "mac";
                             "vendor" := "Acme" ]} [];
        Element "hostnames" ∅ [Element "hostname" {[ "name" := "printer" ]} []]];
     Element "host" ∅
       [Element "status" {[ "state" := "down" ]} [];
        Element "address" {[ "addr" := "192.168.1.11"; "addrtype" := "ipv4" ]} []];
     Element "host" ∅
       [Element "status" {[ "state" := "up" ]} [];
        Element "address" {[ "addr" := "11:22:33:44:55:66"; "addrtype" := "mac" ]} []]].

End Nmap.

(** * The system check ([scripts/verify_system.py]) *)

Module Verify.

(** The variables that [check_environment_vars] looks at, each with the
    flag that makes it optional, in the order of the loop. *)
Definition required : list (string * bool) :=
  [("NETBOX_URL", false); ("NETBOX_TOKEN", false); ("GATEKEEPER_URL", true);
   ("AWX_CALLBACK_URL", true); ("PROXY_HOST", true)].

Definition is_set (env : gmap string string) (var : string) : bool :=
  match env !! var with
  | Some v => negb (String.eqb v "")
  | None => false
  end.

Fixpoint check_vars (env : gmap string string) (items : list (string * bool))
  : bool :=
  match items with
  | [] => true
  | (var, optional) :: rest =>
      if is_set env var then check_vars env rest
      else if optional then check_vars env rest
      else false
  end.

(** [check_environment_vars()] under the environment [env]. *)
Definition check_environment_vars (env : gmap string string) : bool :=
  check_vars env required.

(** [sum(results.values())]. *)
Definition passed (results : list (string * bool)) : nat :=
  list_sum (map (fun r : string * bool => if r.2 then 1%nat else 0%nat) results).

(** [print_summary(results)]: the exit code. *)
Definition print_summary (results : list (string * bool)) : Z :=
  let total := length results in
  if (passed results =? total)%nat then 0 else 1.

End Verify.

(** * The first-boot script ([bootstrap_probe.py]) *)

Module Bootstrap.

(** [chr(c).isspace()] for a code point below 256: what [str.strip()] and
    [str.split()] take for white space. *)
Definition is_space (c : ascii) : bool :=
  let n := N_of_ascii c in
  ((9 <=? n) && (n <=? 13) || (28 <=? n) && (n <=? 32)
   || (n =? 133) || (n =? 160))%N.

(** Whether the pattern [\w] matches a code point below 256: the digits,
    the letters, the underscore, and the Latin-1 letters and numbers. *)
Definition is_word (c : ascii) : bool :=
  let n := N_of_ascii c in
  ((48 <=? n) && (n <=? 57) || (65 <=? n) && (n <=? 90) || (n =? 95)
   || (97 <=? n) && (n <=? 122) || (n =? 170) || (178 <=? n) && (n <=? 179)
   || (n =? 181) || (185 <=? n) && (n <=? 186) || (188 <=? n) && (n <=? 190)
   || (192 <=? n) && (n <=? 214) || (216 <=? n) && (n <=? 246)
   || (248 <=? n) && (n <=? 255))%N.

Definition is_underscore (c : ascii) : bool := Ascii.eqb c "_".

(** [s.lstrip(chars)], the characters to strip given by a test. *)
Fixpoint lstrip (P : ascii -> bool) (s : string) : string :=
  match s with
  | EmptyString => EmptyString
  | String c s' => if P c then lstrip P s' else s
  end.

(** [s.rstrip(chars)]. *)
Fixpoint rstrip (P : ascii -> bool) (s : string) : string :=
  match s with
  | EmptyString => EmptyString
  | String c s' =>
      match rstrip P s' with
      | EmptyString => if P c then EmptyString else String c EmptyString
      | r => String c r
      end
  end.

(** [s.strip(chars)]. *)
Definition strip (P : ascii -> bool) (s : string) : string :=
  rstrip P (lstrip P s).

(** [re.sub(r'[...]+', '_', s)] for a character class given by a test:
    every maximal run of matching characters becomes one underscore.
    [in_run] tells that the character before was part of a run. *)
Fixpoint sub_runs (P : ascii -> bool) (in_run : bool) (s : string) : string :=
  match s with
  | EmptyString => EmptyString
  | String c s' =>
      if P c
      then if in_run then sub_runs P true s'
           else String "_" (sub_runs P true s')
      else String c (sub_runs P false s')
  end.

Definition slugify (text : string) : string :=
  if String.eqb text "" then ""
  else
    let text := strip is_space (Str.lower text) in
    let text := sub_runs (fun c => negb (is_word c)) false text in
    let text := sub_runs is_underscore false text in
    strip is_underscore text.

(** The first and the last character of a string. *)
Definition first_char (s : string) : option ascii :=
  match s with
  | EmptyString => None
  | String c _ => Some c
  end.

Fixpoint last_char (s : string) : option ascii :=
  match s with
  | EmptyString => None
  | String c EmptyString => Some c
  | String _ s' => last_char s'
  end.

(** No two underscores in a row. *)
Fixpoint single_underscores (s : string) : bool :=
  match s with
  | String a ((String b _) as s') =>
      negb (is_underscore a && is_underscore b) && single_underscores s'
  | _ => true
  end.

(** The body of a reply of the gatekeeper as the client reads it with
    [response.json()]. *)
Definition to_json (r : PortResponse) : gmap string pyval :=
  {[ "mac" := PStr (mac r);
     "port" := PInt (port r);
     "existing" := PBool (existing r);
     "device_name" := from_option PStr PNone (device_name r);
     "timestamp" := PStr (timestamp r) ]}.

(** [request_proxy_port(mac)], given what [requests.get] comes back with:
    nothing when it raises a [RequestException], else the status and the
    JSON object of the reply.  [raise_for_status] raises for a status from
    400 to 599; every failure leaves as a [RuntimeError]. *)
Definition request_proxy_port (reply : option (Z * gmap string pyval))
  : result Z :=
  match reply with
  | None => Raise RuntimeError
  | Some (status_code, data) =>
      if Z.leb 400 status_code && Z.ltb status_code 600 then Raise RuntimeError
      else
        let port := dict_get "port" data in
        if negb (truthy port) || negb (isinstance_int port)
        then Raise RuntimeError
        else Ok (int_value port)
  end.

(** ** Reading the configuration *)

Definition CONFIG_PATHS : list string :=
  ["/boot/probe_config.txt"; "/run/live/medium/probe_config.txt";
   "/boot/firmware/probe_config.txt"; "/mnt/probe_config.txt"].

(** The four variables that [read_config] fills while it reads. *)
Record config_vars : Type := ConfigVars {
  tenant_name : option string;
  tenant_slug : option string;
  site_name : option string;
  site_slug : option string
}.

Definition no_vars : config_vars := ConfigVars None None None None.

(** [line.split('=', 1)] when the line has an [=]; nothing when it has
    none. *)
Fixpoint split_first (sep : ascii) (s : string) : option (string * string) :=
  match s with
  | EmptyString => None
  | String c s' =>
      if Ascii.eqb c sep then Some (EmptyString, s')
      else match split_first sep s' with
           | Some (key, val) => Some (String c key, val)
           | None => None
           end
  end.

Definition is_quote (c : ascii) : bool :=
  Ascii.eqb c "034" || Ascii.eqb c "'".

(** The body of the loop over the lines of a file. *)
Definition read_line (vars : config_vars) (line : string) : config_vars :=
  let line := strip is_space line in
  if String.eqb line "" || String.prefix "#" line then vars
  else
    match split_first "=" line with
    | None => vars
    | Some (key, val) =>
        let key := strip is_space key in
        let val := strip is_quote (strip is_space val) in
        if String.eqb key "TENANT_NAME"
        then ConfigVars (Some val) (tenant_slug vars) (site_name vars) (site_slug vars)
        else if String.eqb key "TENANT_SLUG"
        then ConfigVars (tenant_name vars) (Some val) (site_name vars) (site_slug vars)
        else if String.eqb key "SITE_NAME"
        then ConfigVars (tenant_name vars) (tenant_slug vars) (Some val) (site_slug vars)
        else if String.eqb key "SITE_SLUG"
        then ConfigVars (tenant_name vars) (tenant_slug vars) (site_name vars) (Some val)
        else vars
    end.

(** What follows the loop: the answer made of the variables, if they hold
    a tenant.  [title] is [str.title]. *)
Definition resolve (title : string -> string) (vars : config_vars)
  : option (string * string * string * string) :=
  if Nmap.truthy (tenant_name vars)
  then
    let tn := default "" (tenant_name vars) in
    let derived_tenant_slug :=
      if Nmap.truthy (tenant_slug vars) then default "" (tenant_slug vars)
      else slugify tn in
    let final_site_name :=
      if Nmap.truthy (site_name vars) then default "" (site_name vars) else tn in
    let final_site_slug :=
      if Nmap.truthy (site_slug vars) then default "" (site_slug vars)
      else if Nmap.truthy (site_name vars)
           then slugify (default "" (site_name vars))
           else derived_tenant_slug in
    Some (tn, derived_tenant_slug, final_site_name, final_site_slug)
  else if Nmap.truthy (tenant_slug vars)
  then
    let ts := default "" (tenant_slug vars) in
    let final_site_slug :=
      if Nmap.truthy (site_slug vars) then default "" (site_slug vars) else ts in
    Some (title ts, ts,
          (if Nmap.truthy (site_slug vars)
           then title (default "" (site_slug vars)) else title ts),
          final_site_slug)
  else None.

(** The loop over the paths.  [fs] gives, for a path that exists, the
    lines that reading it yields and whether the reading ends well; an
    exception skips what follows the loop over the lines, and the
    variables keep what was read. *)
Fixpoint read_paths (title : string -> string)
    (fs : string -> option (list string * bool)) (vars : config_vars)
    (paths : list string) : result (string * string * string * string) :=
  match paths with
  | [] => Raise RuntimeError
  | path :: rest =>
      match fs path with
      | None => read_paths title fs vars rest
      | Some (lines, read_ok) =>
          let vars := fold_left read_line lines vars in
          if read_ok
          then match resolve title vars with
               | Some answer => Ok answer
               | None => read_paths title fs vars rest
               end
          else read_paths title fs vars rest
      end
  end.

Definition read_config (title : string -> string)
    (fs : string -> option (list string * bool))
  : result (string * string * string * string) :=
  read_paths title fs no_vars CONFIG_PATHS.

(** A line of a configuration file in the usual form: [KEY="value"]. *)
Definition config_line (key value : string) : string :=
  key +:+ "=" +:+ String "034" value +:+ String "034" (String "010" "").

(** A boot medium that holds the configuration of a tenant. *)
Definition live_medium (path : string) : option (list string * bool) :=
  if String.eqb path "/run/live/medium/probe_config.txt"
  then Some (["# probe configuration" +:+ String "010" "";
              config_line "TENANT_NAME" "Acme Corp"], true)
  else None.

End Bootstrap.

(** * The disk installer ([probe-install.py]) *)

Module Install.

(** The line boundaries of [str.splitlines()] below code point 256. *)
Definition is_linebreak (c : ascii) : bool :=
  let n := N_of_ascii c in
  ((10 <=? n) && (n <=? 13) || (28 <=? n) && (n <=? 30) || (n =? 133))%N.

(** [s.splitlines()]; [after_cr] tells that the character before was a
    carriage return, whose line feed belongs to the same boundary. *)
Fixpoint splitlines_from (after_cr : bool) (s : string) : list string :=
  match s with
  | EmptyString => []
  | String c s' =>
      if after_cr && Ascii.eqb c "010" then splitlines_from false s'
      else if is_linebreak c
      then EmptyString :: splitlines_from (Ascii.eqb c "013") s'
      else match splitlines_from false s' with
           | [] => [String c EmptyString]
           | line :: lines => String c line :: lines
           end
  end.

Definition splitlines (s : string) : list string := splitlines_from false s.

(** [s.split()]: the words between runs of white space. *)
Fixpoint split (s : string) : list string :=
  match s with
  | EmptyString => []
  | String c s' =>
      let words := split s' in
      if Bootstrap.is_space c then words
      else match Bootstrap.first_char s', words with
           | Some d, word :: words' =>
               if Bootstrap.is_space d then String c EmptyString :: words
               else String c word :: words'
           | _, _ => String c EmptyString :: words
           end
  end.

Record disk : Type := Disk {
  name : string;
  size : Z
}.

(** The name and the size column of a line of [lsblk] that describes a
    disk that is not removable. *)
Definition candidate (line : string) : option (string * string) :=
  match split line with
  | nm :: sz :: rm :: ty :: _ =>
      if String.eqb rm "0" && String.eqb ty "disk" then Some (nm, sz) else None
  | _ => None
  end.

(** The loop of [get_internal_disk]; [int] is Python's [int()]. *)
Fixpoint collect (int : string -> result Z) (lines : list string)
  : result (list disk) :=
  match lines with
  | [] => Ok []
  | line :: rest =>
      match candidate line with
      | Some (nm, sz) =>
          n ← int sz;
          disks ← collect int rest;
          mret ({| name := nm; size := n |} :: disks)
      | None => collect int rest
      end
  end.

(** [disks.sort(key=lambda x: x['size'], reverse=True)]: the sort is stable,
    so a disk is put before the disks listed after it that are no larger. *)
Fixpoint insert_desc (x : disk) (l : list disk) : list disk :=
  match l with
  | [] => [x]
  | y :: l' => if Z.ltb (size x) (size y) then y :: insert_desc x l' else x :: l
  end.

Definition sort_desc (l : list disk) : list disk := foldr insert_desc [] l.

(** [get_internal_disk()], given the output of [lsblk]. *)
Definition get_internal_disk (int : string -> result Z) (lsblk : string)
  : result string :=
  disks ← collect int (splitlines lsblk);
  match sort_desc disks with
  | [] => Raise RuntimeError
  | d :: _ => Ok ("/dev/" +:+ name d)
  end.

(** Decimal digits, for the sample runs. *)
Fixpoint decimal (acc : Z) (s : string) : result Z :=
  match s with
  | EmptyString => Ok acc
  | String c s' =>
      let n := Z.of_N (N_of_ascii c) in
      if Z.leb 48 n && Z.leb n 57 then decimal (10 * acc + (n - 48)) s'
      else Raise ValueError
  end.

Definition sample_int (s : string) : result Z :=
  if String.eqb s "" then Raise ValueError else decimal 0 s.

Definition sample_lsblk : string :=
  "sda 32010928128 1 disk" +:+ String "010" (
  "nvme0n1 512110190592 0 disk" +:+ String "010" (
  "nvme0n1p1 536870912 0 part" +:+ String "010" (
  "sdb 256060514304 0 disk" +:+ String "010" ""))).

End Install.

(** * Properties *)

(** ** Strings *)

Lemma lower_char_idempotent c : Str.lower_char (Str.lower_char c) = Str.lower_char c.
Proof. destruct c as [[] [] [] [] [] [] [] []]; reflexivity. Qed.

Lemma remove_chars_strip s :
  Str.remove_char "." (Str.remove_char "-" (Str.remove_char ":" s))
  = Str.strip_separators s.
Proof.
  induction s as [|a s IH]; simpl; [reflexivity|].
  unfold Str.is_separator.
  destruct (Ascii.eqb a ":") eqn:E1; simpl; [exact IH|].
  destruct (Ascii.eqb a "-") eqn:E2; simpl; [exact IH|].
  destruct (Ascii.eqb a "."); simpl; [exact IH|].
  now rewrite IH.
Qed.

Lemma strip_lower_canonical s :
  Str.all_chars Str.canonical_char (Str.strip_separators (Str.lower s)) = true.
Proof.
  induction s as [|a s IH]; simpl; [reflexivity|].
  destruct (Str.is_separator (Str.lower_char a)) eqn:E; [exact IH|].
  simpl. rewrite IH, andb_true_r.
  unfold Str.canonical_char.
  rewrite lower_char_idempotent, Ascii.eqb_refl, E. reflexivity.
Qed.

Lemma canonical_char_lower c :
  Str.canonical_char c = true -> Str.lower_char c = c.
Proof.
  unfold Str.canonical_char. intros [H _]%andb_prop.
  now apply Ascii.eqb_eq.
Qed.

Lemma canonical_char_separator c :
  Str.canonical_char c = true -> Str.is_separator c = false.
Proof.
  unfold Str.canonical_char. intros [_ H]%andb_prop.
  now apply negb_true_iff.
Qed.

(** Lowering and stripping undo the colons that [Spec.colons] inserts. *)
Lemma strip_lower_colons s :
  Str.all_chars Str.canonical_char s = true ->
  Str.strip_separators (Str.lower (Spec.colons s)) = s.
Proof.
  assert (Hboth : forall t,
    (Str.all_chars Str.canonical_char t = true ->
     Str.strip_separators (Str.lower (Spec.colons t)) = t)
    /\ (forall a, Str.all_chars Str.canonical_char (String a t) = true ->
        Str.strip_separators (Str.lower (Spec.colons (String a t))) = String a t)).
  { induction t as [|b t [IH1 IH2]].
    - split; [reflexivity|].
      intros a Ha. simpl in Ha. rewrite andb_true_r in Ha. simpl.
      rewrite (canonical_char_lower _ Ha), (canonical_char_separator _ Ha).
      reflexivity.
    - split; [apply IH2|].
      intros a Ha. simpl in Ha.
      apply andb_prop in Ha as [Ha Hbt]. apply andb_prop in Hbt as [Hb Ht].
      destruct t as [|c t].
      + simpl.
        rewrite (canonical_char_lower _ Ha), (canonical_char_separator _ Ha).
        rewrite (canonical_char_lower _ Hb), (canonical_char_separator _ Hb).
        reflexivity.
      + change (Spec.colons (String a (String b (String c t))))
          with (String a (String b (String ":" (Spec.colons (String c t))))).
        cbn [Str.lower Str.strip_separators].
        rewrite (canonical_char_lower _ Ha), (canonical_char_separator _ Ha).
        rewrite (canonical_char_lower _ Hb), (canonical_char_separator _ Hb).
        change (Str.is_separator (Str.lower_char ":")) with true. cbn iota.
        now rewrite IH1. }
  apply Hboth.
Qed.

(** The slices of a twelve-character string joined by colons. *)
Lemma join_slices_colons s :
  String.length s = 12%nat ->
  Str.join ":" (map (fun i => Str.slice s i (i + 2)) (Str.range 0 12 2))
  = Spec.colons s.
Proof.
  do 12 (destruct s as [|? s]; [discriminate|]).
  destruct s; [reflexivity|discriminate].
Qed.

(** ** The MAC normalizer *)

Lemma normalize_mac_unfold raw :
  normalize_mac raw =
  let c := Str.strip_separators (Str.lower raw) in
  if (String.length c =? 12)%nat then Ok (Spec.colons c) else Raise ValueError.
Proof.
  unfold normalize_mac. rewrite remove_chars_strip. cbv zeta.
  destruct (String.length _ =? 12)%nat eqn:E; cbn [negb]; [|reflexivity].
  apply Nat.eqb_eq in E. now rewrite (join_slices_colons _ E).
Qed.

Example normalize_dots : normalize_mac "AABB.CCDD.EEFF" = Ok "aa:bb:cc:dd:ee:ff".
Proof. reflexivity. Qed.

Lemma normalize_mac_canonical raw m :
  normalize_mac raw = Ok m ->
  exists c, String.length c = 12%nat
            /\ Str.all_chars Str.canonical_char c = true
            /\ m = Spec.colons c.
Proof.
  rewrite normalize_mac_unfold. cbv zeta.
  destruct (String.length _ =? 12)%nat eqn:E; [|discriminate].
  intros [= <-]. exists (Str.strip_separators (Str.lower raw)).
  split; [apply Nat.eqb_eq, E|].
  split; [apply strip_lower_canonical|reflexivity].
Qed.

(** C4, as the code has it: [normalize_mac] lowercases its input, removes
    the characters [:], [-] and [.] and nothing else, raises [ValueError]
    unless exactly twelve characters remain (hexadecimal or not), and
    otherwise returns these twelve characters with a colon after every
    second one; ["aabbcc"] and ["not-a-mac"] raise [ValueError], which the
    endpoint answers with status 400. *)
Theorem normalize_mac_strips_separators raw :
  normalize_mac raw =
    (let c := Str.strip_separators (Str.lower raw) in
     if (String.length c =? 12)%nat then Ok (Spec.colons c) else Raise ValueError)
  /\ normalize_mac "aabbcc" = Raise ValueError
  /\ normalize_mac "not-a-mac" = Raise ValueError
  /\ (forall nb now,
        GET_request_port nb now "aabbcc" = ((HTTP_400_BAD_REQUEST, None), nb)
        /\ GET_request_port nb now "not-a-mac"
           = ((HTTP_400_BAD_REQUEST, None), nb)).
Proof.
  split; [apply normalize_mac_unfold|]. repeat split; reflexivity.
Qed.

(** C4 as stated fails: twelve letters that are not hexadecimal digits are
    accepted, although no hexadecimal digit remains after stripping; and a
    valid address written with spaces is rejected, although twelve
    hexadecimal digits remain. *)
Lemma normalize_mac_keeps_non_hex :
  normalize_mac "gghhiijjkkll" = Ok "gg:hh:ii:jj:kk:ll"
  /\ Spec.normalize "gghhiijjkkll" = Raise ValueError
  /\ normalize_mac "aa bb cc dd ee ff" = Raise ValueError
  /\ Spec.normalize "aa bb cc dd ee ff" = Ok "aa:bb:cc:dd:ee:ff".
Proof. repeat split; reflexivity. Qed.

(** C9: on every input that [normalize_mac] accepts, normalizing the result
    again returns it unchanged; the colon, dash and bare forms of
    aa:bb:cc:dd:ee:ff all normalize to ["aa:bb:cc:dd:ee:ff"]. *)
Theorem normalize_mac_idempotent raw m :
  normalize_mac raw = Ok m ->
  normalize_mac m = Ok m
  /\ normalize_mac "aa:bb:cc:dd:ee:ff" = Ok "aa:bb:cc:dd:ee:ff"
  /\ normalize_mac "AA-BB-CC-DD-EE-FF" = Ok "aa:bb:cc:dd:ee:ff"
  /\ normalize_mac "aabbccddeeff" = Ok "aa:bb:cc:dd:ee:ff".
Proof.
  intros (c & Hlen & Hc & ->)%normalize_mac_canonical.
  split; [|repeat split; reflexivity].
  rewrite normalize_mac_unfold. cbv zeta.
  rewrite (strip_lower_colons _ Hc), Hlen. reflexivity.
Qed.

Lemma normalize_mac_idempotent_witness :
  normalize_mac "AA-BB-CC-DD-EE-FF" = Ok "aa:bb:cc:dd:ee:ff"
  /\ normalize_mac "aa:bb:cc:dd:ee:ff" = Ok "aa:bb:cc:dd:ee:ff".
Proof.
  split; [reflexivity|].
  apply (normalize_mac_idempotent "AA-BB-CC-DD-EE-FF" "aa:bb:cc:dd:ee:ff").
  reflexivity.
Defined.

(** ** The port allocator *)

Lemma max_port_step_ge acc d : acc <= max_port_step acc d.
Proof. unfold max_port_step. destruct (_ && _); lia. Qed.

Lemma max_port_fold_ge ds acc : acc <= fold_left max_port_step ds acc.
Proof.
  revert acc. induction ds as [|d ds IH]; intros acc; simpl; [lia|].
  specialize (IH (max_port_step acc d)).
  pose proof (max_port_step_ge acc d). lia.
Qed.

(** The loop dominates every port that [request_port] would read back. *)
Lemma max_port_fold_bound ds acc p :
  p ∈ assigned_ports ds -> p <= fold_left max_port_step ds acc.
Proof.
  revert acc. induction ds as [|d ds IH]; intros acc; simpl.
  - intros H. inversion H.
  - unfold assigned_ports. simpl. fold (assigned_ports ds).
    destruct (assigned_port d) as [q|] eqn:Eq; simpl.
    + intros [->|Hin]%elem_of_cons; [|now apply IH].
      etransitivity; [|apply max_port_fold_ge].
      unfold assigned_port in Eq. unfold max_port_step.
      destruct (_ && _); [|discriminate]. injection Eq as <-. lia.
    + apply IH.
Qed.

(** The loop computes the maximum of the integer port attributes, capped
    from below by its start value. *)
Lemma max_port_fold_spec ds acc :
  1 <= acc ->
  fold_left max_port_step ds acc =
  match Spec.observed_max ds with
  | Some m => Z.max acc m
  | None => acc
  end.
Proof.
  revert acc. induction ds as [|d ds IH]; intros acc Hacc; simpl; [reflexivity|].
  rewrite IH by (pose proof (max_port_step_ge acc d); lia).
  unfold max_port_step, Spec.port_attribute, dict_get.
  destruct (custom_fields d !! CUSTOM_FIELD_NAME) as [v|]; simpl; [|reflexivity].
  destruct v as [|b|z|t]; simpl.
  - reflexivity.
  - destruct b; cbn [andb]; destruct (Spec.observed_max ds); lia.
  - destruct (Z.eqb_spec z 0); cbn [negb andb];
      destruct (Spec.observed_max ds); lia.
  - destruct (negb (String.eqb t "")); reflexivity.
Qed.

Lemma next_port_spec ds :
  fold_left max_port_step ds (DEFAULT_START_PORT - 1) + 1
  = Spec.next_port DEFAULT_START_PORT ds.
Proof.
  rewrite max_port_fold_spec by (unfold DEFAULT_START_PORT; lia).
  unfold Spec.next_port. destruct (Spec.observed_max ds); [|reflexivity].
  f_equal. lia.
Qed.

(** ** The device resolver *)

Lemma answer_ok {A : Type} (raises : option exn) (a b : A) :
  Dcim.answer raises a = Ok b -> raises = None /\ a = b.
Proof. destruct raises; simpl; [discriminate|]. now intros [= ->]. Qed.

Lemma devices_get_in reg i d :
  Dcim.devices_get reg i = Ok (Some d) -> d ∈ devices reg /\ dev_id d = i.
Proof.
  intros [_ H]%answer_ok. apply find_some in H as [Hin Hid].
  split; [now apply list_elem_of_In|]. now apply Z.eqb_eq.
Qed.

Lemma mac_objects_loop_in reg objs d :
  mac_objects_loop reg objs = Ok (Return (Some d)) -> d ∈ devices reg.
Proof.
  induction objs as [|o objs IH]; simpl; [discriminate|].
  destruct (assigned_object o) as [i|]; [|exact IH].
  destruct (if_device i) as [k|]; [|exact IH].
  destruct (Dcim.devices_get reg k) as [x|] eqn:E; simpl; [|discriminate].
  intros [= ->]. now apply devices_get_in in E.
Qed.

Lemma interfaces_loop_in reg ifaces d :
  interfaces_loop reg ifaces = Ok (Return (Some d)) -> d ∈ devices reg.
Proof.
  induction ifaces as [|i ifaces IH]; simpl; [discriminate|].
  destruct (if_device i) as [k|]; [|exact IH].
  destruct (Dcim.devices_get reg k) as [x|] eqn:E; simpl; [|discriminate].
  intros [= ->]. now apply devices_get_in in E.
Qed.

Lemma names_loop_in mac_clean ds d :
  names_loop mac_clean ds = Ok (Some d) -> d ∈ ds.
Proof.
  induction ds as [|x ds IH]; simpl; [discriminate|].
  destruct (dev_name x); [|discriminate].
  destruct (Str.contains _ _).
  - intros [= ->]. apply list_elem_of_here.
  - intros H. apply list_elem_of_further, IH, H.
Qed.

Lemma strategy1_in reg m d :
  strategy1 reg m = Ok (Return (Some d)) -> d ∈ devices reg.
Proof.
  unfold strategy1, mac_objects_lookup, Dcim.mac_addresses_filter, Dcim.answer.
  destruct (mac_addresses_raises reg) as [e|]; simpl.
  - destruct (is_AttributeError e); discriminate.
  - destruct (mac_objects_loop reg _) as [x|e] eqn:E; simpl.
    + intros [= ->]. now apply mac_objects_loop_in in E.
    + destruct (is_AttributeError e); discriminate.
Qed.

Lemma strategy2_in reg m d :
  strategy2 reg m = Ok (Return (Some d)) -> d ∈ devices reg.
Proof.
  unfold strategy2, interfaces_lookup, Dcim.interfaces_filter, Dcim.answer.
  destruct (interfaces_raises reg) as [e|]; simpl; [discriminate|].
  destruct (interfaces_loop reg _) as [x|e] eqn:E; simpl; [|discriminate].
  intros [= ->]. now apply interfaces_loop_in in E.
Qed.

Lemma strategy3_in reg m d :
  strategy3 reg m = Ok (Return (Some d)) -> d ∈ devices reg.
Proof.
  unfold strategy3, Dcim.devices_filter, Dcim.answer.
  destruct (devices_filter_raises reg); simpl; [discriminate|].
  destruct (List.filter _ _) as [|x l] eqn:E; simpl; [discriminate|].
  intros [= ->].
  assert (In d (List.filter (Dcim.cf_mac_address_is m) (devices reg))) as Hin
    by (rewrite E; now left).
  apply filter_In in Hin as [Hin _]. now apply list_elem_of_In.
Qed.

Lemma strategy4_in reg m d :
  strategy4 reg m = Ok (Some d) -> d ∈ devices reg.
Proof.
  unfold strategy4, Dcim.devices_all, Dcim.answer.
  destruct (devices_all_raises reg); simpl; [discriminate|].
  apply names_loop_in.
Qed.

(** The resolver, one strategy after the other. *)
Lemma find_device_by_mac_chain reg m :
  find_device_by_mac (Some reg) m =
  match strategy1 reg m with
  | Raise e => Raise e
  | Ok (Return d) => Ok d
  | Ok Next =>
      match strategy2 reg m with
      | Raise e => Raise e
      | Ok (Return d) => Ok d
      | Ok Next =>
          match strategy3 reg m with
          | Raise e => Raise e
          | Ok (Return d) => Ok d
          | Ok Next => strategy4 reg m
          end
      end
  end.
Proof.
  unfold find_device_by_mac.
  destruct (strategy1 reg m) as [[d|]|e]; simpl; try reflexivity.
  destruct (strategy2 reg m) as [[d|]|e]; simpl; try reflexivity.
  destruct (strategy3 reg m) as [[d|]|e]; simpl; try reflexivity.
  destruct (strategy4 reg m); reflexivity.
Qed.

(** A device that the resolver returns is a record of the registry. *)
Lemma find_device_in_registry reg m d :
  find_device_by_mac (Some reg) m = Ok (Some d) -> d ∈ devices reg.
Proof.
  rewrite find_device_by_mac_chain.
  destruct (strategy1 reg m) as [[x|]|e] eqn:E1; try discriminate.
  { intros [= ->]. now apply strategy1_in in E1. }
  destruct (strategy2 reg m) as [[x|]|e] eqn:E2; try discriminate.
  { intros [= ->]. now apply strategy2_in in E2. }
  destruct (strategy3 reg m) as [[x|]|e] eqn:E3; try discriminate.
  { intros [= ->]. now apply strategy3_in in E3. }
  apply strategy4_in.
Qed.

(** ** The orchestrator *)

(** The read path. *)
Lemma request_port_existing reg now raw m d p :
  normalize_mac raw = Ok m ->
  find_device_by_mac (Some reg) m = Ok (Some d) ->
  assigned_port d = Some p ->
  request_port (Some reg) now raw =
  (Ok {| mac := m; port := p; existing := true;
         device_name := dev_name d; timestamp := now |}, Some reg).
Proof.
  intros Hn Hf Hp. unfold request_port. rewrite Hn, Hf.
  unfold assigned_port in Hp. cbv zeta.
  destruct (_ && _); [|discriminate]. now injection Hp as <-.
Qed.

(** The write path. *)
Lemma request_port_allocate reg now raw m dev :
  normalize_mac raw = Ok m ->
  find_device_by_mac (Some reg) m = Ok dev ->
  dev ≫= assigned_port = None ->
  request_port (Some reg) now raw = try_assign_new_port (Some reg) reg now m dev.
Proof.
  intros Hn Hf Hp. unfold request_port. rewrite Hn, Hf.
  destruct dev as [d|]; [|reflexivity].
  simpl in Hp. unfold assigned_port in Hp. cbv zeta.
  destruct (_ && _); [discriminate|reflexivity].
Qed.

(** Every successful call went through one of the two paths. *)
Lemma request_port_ok_inv nb now raw r nb' :
  request_port nb now raw = (Ok r, nb') ->
  exists m reg dev,
    normalize_mac raw = Ok m /\ nb = Some reg
    /\ find_device_by_mac (Some reg) m = Ok dev
    /\ ((exists d p, dev = Some d /\ assigned_port d = Some p
                     /\ r = {| mac := m; port := p; existing := true;
                               device_name := dev_name d; timestamp := now |}
                     /\ nb' = nb)
        \/ (dev ≫= assigned_port = None
            /\ exists reg', assign_new_port reg now m dev = Ok (r, reg')
                            /\ nb' = Some reg')).
Proof.
  unfold request_port.
  destruct (normalize_mac raw) as [m|e] eqn:Hn.
  2:{ destruct e; discriminate. }
  destruct nb as [reg|]; [|discriminate].
  destruct (find_device_by_mac (Some reg) m) as [dev|e] eqn:Hf; [|discriminate].
  intros H. exists m, reg, dev.
  split; [reflexivity|]. split; [reflexivity|]. split; [exact Hf|].
  destruct dev as [d|].
  - cbv zeta in H. unfold assigned_port. simpl.
    destruct (_ && _) eqn:E.
    + left. injection H as <- <-. eexists d, _. rewrite E. eauto.
    + right. split; [reflexivity|].
      unfold try_assign_new_port in H.
      destruct (assign_new_port reg now m (Some d)) as [[r0 reg']|]; [|discriminate].
      injection H as <- <-. eauto.
  - right. split; [reflexivity|].
    unfold try_assign_new_port in H.
    destruct (assign_new_port reg now m None) as [[r0 reg']|]; [|discriminate].
    injection H as <- <-. eauto.
Qed.

Lemma assign_new_port_create reg now m :
  devices_all_raises reg = None ->
  devices_create_raises reg = None ->
  assign_new_port reg now m None =
  Ok ({| mac := m; port := new_port reg; existing := false;
         device_name := dev_name (pending_device reg m); timestamp := now |},
      set_devices reg (devices reg ++ [pending_device reg m])).
Proof.
  intros Hall Hcreate.
  unfold assign_new_port, get_max_assigned_port, Dcim.devices_all,
    Dcim.devices_create, Dcim.answer.
  rewrite Hall, Hcreate. reflexivity.
Qed.

Lemma existsb_same_id d ds :
  d ∈ ds -> existsb (fun x => Z.eqb (dev_id x) (dev_id d)) ds = true.
Proof.
  intros Hin. apply existsb_exists. exists d.
  split; [now apply list_elem_of_In|apply Z.eqb_refl].
Qed.

Lemma assign_new_port_update reg now m d :
  devices_all_raises reg = None ->
  save_raises reg = None ->
  d ∈ devices reg ->
  assign_new_port reg now m (Some d) =
  Ok ({| mac := m; port := new_port reg; existing := false;
         device_name := dev_name d; timestamp := now |},
      set_devices reg (Dcim.saved (with_new_port reg d) (devices reg))).
Proof.
  intros Hall Hsave Hin.
  unfold assign_new_port, get_max_assigned_port, Dcim.devices_all,
    Dcim.save, Dcim.answer.
  rewrite Hall, Hsave. simpl.
  fold (new_port reg). fold (with_new_port reg d).
  change (dev_id (with_new_port reg d)) with (dev_id d).
  rewrite (existsb_same_id _ _ Hin). reflexivity.
Qed.

Lemma assign_new_port_inv reg now m dev r reg' :
  assign_new_port reg now m dev = Ok (r, reg') ->
  devices_all_raises reg = None
  /\ mac r = m /\ port r = new_port reg /\ existing r = false
  /\ match dev with
     | None =>
         devices_create_raises reg = None
         /\ reg' = set_devices reg (devices reg ++ [pending_device reg m])
     | Some d =>
         save_raises reg = None
         /\ reg' = set_devices reg (Dcim.saved (with_new_port reg d) (devices reg))
         /\ device_name r = dev_name d
     end.
Proof.
  unfold assign_new_port, get_max_assigned_port, Dcim.devices_all, Dcim.answer.
  destruct (devices_all_raises reg); simpl; [discriminate|].
  fold (new_port reg).
  destruct dev as [d|].
  - fold (with_new_port reg d). unfold Dcim.save.
    destruct (save_raises reg); simpl; [discriminate|].
    destruct (existsb _ _); simpl; [|discriminate].
    intros [= <- <-]. repeat split; reflexivity.
  - unfold Dcim.devices_create, Dcim.answer.
    destruct (devices_create_raises reg); simpl; [discriminate|].
    intros [= <- <-]. repeat split; reflexivity.
Qed.

(** ** Saving a record *)

Lemma saved_ids r ds : map dev_id (Dcim.saved r ds) = map dev_id ds.
Proof.
  unfold Dcim.saved. rewrite map_map. apply map_ext.
  intros x. destruct (Z.eqb _ _); reflexivity.
Qed.

Lemma saved_names r ds : map dev_name (Dcim.saved r ds) = map dev_name ds.
Proof.
  unfold Dcim.saved. rewrite map_map. apply map_ext.
  intros x. destruct (Z.eqb _ _); reflexivity.
Qed.

Lemma saved_other r ds x :
  x ∈ ds -> dev_id x <> dev_id r -> x ∈ Dcim.saved r ds.
Proof.
  intros Hin Hne. apply list_elem_of_In, in_map_iff. exists x.
  split; [|now apply list_elem_of_In].
  destruct (Z.eqb_spec (dev_id x) (dev_id r)); [contradiction|reflexivity].
Qed.

Lemma saved_record reg d :
  d ∈ devices reg ->
  with_new_port reg d ∈ Dcim.saved (with_new_port reg d) (devices reg).
Proof.
  intros Hin. apply list_elem_of_In, in_map_iff. exists d.
  split; [|now apply list_elem_of_In].
  change (dev_id (with_new_port reg d)) with (dev_id d).
  rewrite Z.eqb_refl. reflexivity.
Qed.

Lemma new_port_floor reg : DEFAULT_START_PORT <= new_port reg.
Proof.
  unfold new_port.
  pose proof (max_port_fold_ge (devices reg) (DEFAULT_START_PORT - 1)). lia.
Qed.

Lemma assigned_port_int d p :
  custom_fields d !! CUSTOM_FIELD_NAME = Some (PInt p) -> p <> 0 ->
  assigned_port d = Some p.
Proof.
  intros H Hp. unfold assigned_port, dict_get. rewrite H. simpl.
  destruct (Z.eqb_spec p 0); [contradiction|reflexivity].
Qed.

Lemma assigned_port_with_new_port reg d :
  assigned_port (with_new_port reg d) = Some (new_port reg).
Proof.
  apply assigned_port_int.
  - simpl. apply lookup_insert_eq.
  - pose proof (new_port_floor reg). unfold DEFAULT_START_PORT in *. lia.
Qed.

Lemma assigned_port_pending_device reg m :
  assigned_port (pending_device reg m) = Some (new_port reg).
Proof.
  apply assigned_port_int.
  - simpl. apply lookup_singleton_eq.
  - pose proof (new_port_floor reg). unfold DEFAULT_START_PORT in *. lia.
Qed.

(** ** The read path and the completion of a record *)

(** C7: when the MAC resolves to a device that holds a port, [request_port]
    answers that port with [existing = true] and leaves the registry as it
    was. *)
Theorem request_port_read_only reg now raw m d p :
  normalize_mac raw = Ok m ->
  find_device_by_mac (Some reg) m = Ok (Some d) ->
  assigned_port d = Some p ->
  exists r,
    request_port (Some reg) now raw = (Ok r, Some reg)
    /\ port r = p /\ existing r = true /\ mac r = m
    /\ device_name r = dev_name d
    /\ GET_request_port (Some reg) now raw = ((HTTP_200_OK, Some r), Some reg).
Proof.
  intros Hn Hf Hp. eexists. unfold GET_request_port.
  rewrite (request_port_existing _ now _ _ _ _ Hn Hf Hp).
  repeat split; reflexivity.
Qed.

Lemma request_port_read_only_witness :
  exists r,
    request_port (Some three_probes) "2026-01-01T00:00:00" "02-00-00-00-00-02"
    = (Ok r, Some three_probes)
    /\ port r = 10002 /\ existing r = true.
Proof.
  destruct (request_port_read_only three_probes "2026-01-01T00:00:00"
              "02-00-00-00-00-02" "02:00:00:00:00:02"
              (probe 2 "probe-020000000002" (with_port (PInt 10002))) 10002)
    as (r & H & Hp & He & _); [reflexivity..|].
  exists r. auto.
Defined.

(** C6: when the MAC resolves to a device that holds no port,
    [request_port] writes the newly computed port on that very record and
    answers [existing = false]: the stored records keep their ids and their
    names, none is added, the record of the device now holds the port, and
    the records of the other devices are untouched. *)
Theorem request_port_completes_record reg now raw m d :
  normalize_mac raw = Ok m ->
  find_device_by_mac (Some reg) m = Ok (Some d) ->
  assigned_port d = None ->
  devices_all_raises reg = None ->
  save_raises reg = None ->
  exists r reg',
    request_port (Some reg) now raw = (Ok r, Some reg')
    /\ port r = new_port reg /\ existing r = false
    /\ device_name r = dev_name d
    /\ devices reg' = Dcim.saved (with_new_port reg d) (devices reg)
    /\ map dev_id (devices reg') = map dev_id (devices reg)
    /\ map dev_name (devices reg') = map dev_name (devices reg)
    /\ with_new_port reg d ∈ devices reg'
    /\ assigned_port (with_new_port reg d) = Some (new_port reg)
    /\ (forall x, x ∈ devices reg -> dev_id x <> dev_id d -> x ∈ devices reg').
Proof.
  intros Hn Hf Hp Hall Hsave.
  pose proof (find_device_in_registry _ _ _ Hf) as Hin.
  rewrite (request_port_allocate _ now _ _ _ Hn Hf Hp).
  unfold try_assign_new_port.
  rewrite (assign_new_port_update _ now m _ Hall Hsave Hin).
  eexists _, _. split; [reflexivity|]. simpl.
  repeat split.
  - apply saved_ids.
  - apply saved_names.
  - now apply saved_record.
  - apply assigned_port_with_new_port.
  - intros x Hx Hne. now apply saved_other.
Qed.

Lemma request_port_completes_record_witness :
  exists r reg',
    request_port (Some unprovisioned) "2026-01-01T00:00:00" "AA-BB-CC-DD-EE-FF"
    = (Ok r, Some reg')
    /\ port r = 10002 /\ existing r = false
    /\ device_name r = Some "rack4-AA-BB-CC-DD-EE-FF"
    /\ map dev_name (devices reg') = map dev_name (devices unprovisioned).
Proof.
  destruct (request_port_completes_record unprovisioned "2026-01-01T00:00:00"
              "AA-BB-CC-DD-EE-FF" "aa:bb:cc:dd:ee:ff"
              (probe 7 "rack4-AA-BB-CC-DD-EE-FF" ∅))
    as (r & reg' & H & Hp & He & Hd & _ & _ & Hnames & _); [reflexivity..|].
  exists r, reg'. auto.
Defined.

(** ** The next port *)

(** C3: the port of a new allocation is [max(observed_max, floor - 1) + 1]
    with [floor = 10001], where [observed_max] is the maximum integer port
    attribute over the device records; with the ports 10001, 10002 and
    10005 assigned the next one is 10006, and with no port assigned it is
    10001. *)
Theorem new_allocation_is_max_plus_one nb now raw r nb' :
  request_port nb now raw = (Ok r, nb') ->
  existing r = false ->
  (exists reg, nb = Some reg
               /\ port r = Spec.next_port DEFAULT_START_PORT (devices reg))
  /\ DEFAULT_START_PORT = 10001
  /\ Spec.observed_max (devices three_probes) = Some 10005
  /\ new_port three_probes = 10006
  /\ Spec.observed_max (devices empty_registry) = None
  /\ new_port empty_registry = 10001.
Proof.
  intros H He. split; [|repeat split; reflexivity].
  apply request_port_ok_inv in H
    as (m & reg & dev & Hn & -> & Hf & [(d & p & _ & _ & -> & _)|(_ & reg' & Ha & _)]).
  { discriminate. }
  exists reg. split; [reflexivity|].
  apply assign_new_port_inv in Ha as (_ & _ & -> & _).
  apply next_port_spec.
Qed.

Lemma new_allocation_is_max_plus_one_witness :
  exists r nb',
    request_port (Some three_probes) "2026-01-01T00:00:00" "aa:bb:cc:dd:ee:ff"
    = (Ok r, nb')
    /\ port r = 10006
    /\ port r = Spec.next_port DEFAULT_START_PORT (devices three_probes).
Proof.
  eexists _, _. split; [reflexivity|]. split; [reflexivity|].
  destruct (new_allocation_is_max_plus_one (Some three_probes)
              "2026-01-01T00:00:00" "aa:bb:cc:dd:ee:ff" _ _ eq_refl eq_refl)
    as [(reg & [= <-] & Hp) _].
  exact Hp.
Defined.

(** ** Port attributes that are not ports *)

Lemma max_port_fold_skip d before after acc :
  (forall a, max_port_step a d = a) ->
  fold_left max_port_step (before ++ d :: after) acc
  = fold_left max_port_step (before ++ after) acc.
Proof.
  intros Hd. rewrite !fold_left_app. simpl. now rewrite Hd.
Qed.

(** C10: a port attribute that holds 0, or a value that is not an instance
    of [int], counts as no port for the allocator and for [request_port]:
    the record does not move the maximum, and a request for its MAC
    answers [existing = false] with the newly computed port and overwrites
    the attribute with it. *)
Theorem unusable_port_value_is_no_port reg now raw m d v :
  custom_fields d !! CUSTOM_FIELD_NAME = Some v ->
  v = PInt 0 \/ isinstance_int v = false ->
  normalize_mac raw = Ok m ->
  find_device_by_mac (Some reg) m = Ok (Some d) ->
  devices_all_raises reg = None ->
  save_raises reg = None ->
  (forall acc, max_port_step acc d = acc)
  /\ (forall before after acc,
        fold_left max_port_step (before ++ d :: after) acc
        = fold_left max_port_step (before ++ after) acc)
  /\ assigned_port d = None
  /\ exists r reg',
       request_port (Some reg) now raw = (Ok r, Some reg')
       /\ existing r = false /\ port r = new_port reg
       /\ with_new_port reg d ∈ devices reg'
       /\ custom_fields (with_new_port reg d) !! CUSTOM_FIELD_NAME
          = Some (PInt (new_port reg)).
Proof.
  intros Hv Hkind Hn Hf Hall Hsave.
  assert (Htest : truthy v && isinstance_int v = false).
  { destruct Hkind as [->|Hi]; [reflexivity|]. rewrite Hi. apply andb_false_r. }
  assert (Hstep : forall acc, max_port_step acc d = acc).
  { intros acc. unfold max_port_step, dict_get. rewrite Hv. simpl.
    now rewrite Htest. }
  assert (Hnone : assigned_port d = None).
  { unfold assigned_port, dict_get. rewrite Hv. simpl. now rewrite Htest. }
  split; [exact Hstep|]. split.
  { intros before after acc. now apply max_port_fold_skip. }
  split; [exact Hnone|].
  pose proof (find_device_in_registry _ _ _ Hf) as Hin.
  rewrite (request_port_allocate _ now _ _ _ Hn Hf Hnone).
  unfold try_assign_new_port.
  rewrite (assign_new_port_update _ now m _ Hall Hsave Hin).
  eexists _, _. split; [reflexivity|]. simpl.
  repeat split.
  - now apply saved_record.
  - apply lookup_insert_eq.
Qed.

Lemma unusable_port_value_is_no_port_witness :
  exists r reg',
    request_port (Some mistyped) "2026-01-01T00:00:00" "aabbccddeeff"
    = (Ok r, Some reg')
    /\ existing r = false /\ port r = 10002.
Proof.
  destruct (unusable_port_value_is_no_port mistyped "2026-01-01T00:00:00"
              "aabbccddeeff" "aa:bb:cc:dd:ee:ff"
              (probe 7 "probe-aabbccddeeff" (with_port (PStr "10050")))
              (PStr "10050"))
    as (_ & _ & _ & r & reg' & H & He & Hp & _);
    [reflexivity|right; reflexivity|reflexivity..|].
  exists r, reg'. auto.
Defined.

(** ** A pending device is found again by its name *)

Lemma canonical_lower s :
  Str.all_chars Str.canonical_char s = true -> Str.lower s = s.
Proof.
  induction s as [|a s IH]; simpl; [reflexivity|].
  intros [Ha Hs]%andb_prop.
  now rewrite (canonical_char_lower _ Ha), IH.
Qed.

Lemma canonical_not_colon a :
  Str.canonical_char a = true -> Ascii.eqb a ":" = false.
Proof.
  intros H%canonical_char_separator. unfold Str.is_separator in H.
  now destruct (Ascii.eqb a ":").
Qed.

Lemma canonical_not_dash a :
  Str.canonical_char a = true -> Ascii.eqb a "-" = false.
Proof.
  intros H%canonical_char_separator. unfold Str.is_separator in H.
  destruct (Ascii.eqb a "-"); [|reflexivity].
  now rewrite orb_true_r in H.
Qed.

Lemma canonical_remove_colon s :
  Str.all_chars Str.canonical_char s = true -> Str.remove_char ":" s = s.
Proof.
  induction s as [|a s IH]; simpl; [reflexivity|].
  intros [Ha Hs]%andb_prop.
  now rewrite (canonical_not_colon _ Ha), IH.
Qed.

Lemma canonical_remove_dash s :
  Str.all_chars Str.canonical_char s = true -> Str.remove_char "-" s = s.
Proof.
  induction s as [|a s IH]; simpl; [reflexivity|].
  intros [Ha Hs]%andb_prop.
  now rewrite (canonical_not_dash _ Ha), IH.
Qed.

Lemma remove_colon_colons s :
  Str.all_chars Str.canonical_char s = true ->
  Str.remove_char ":" (Spec.colons s) = s.
Proof.
  assert (Hboth : forall t,
    (Str.all_chars Str.canonical_char t = true ->
     Str.remove_char ":" (Spec.colons t) = t)
    /\ (forall a, Str.all_chars Str.canonical_char (String a t) = true ->
        Str.remove_char ":" (Spec.colons (String a t)) = String a t)).
  { induction t as [|b t [IH1 IH2]].
    - split; [reflexivity|].
      intros a Ha. simpl in Ha. rewrite andb_true_r in Ha. simpl.
      now rewrite (canonical_not_colon _ Ha).
    - split; [apply IH2|].
      intros a Ha. simpl in Ha.
      apply andb_prop in Ha as [Ha Hbt]. apply andb_prop in Hbt as [Hb Ht].
      destruct t as [|c t].
      + simpl.
        now rewrite (canonical_not_colon _ Ha), (canonical_not_colon _ Hb).
      + change (Spec.colons (String a (String b (String c t))))
          with (String a (String b (String ":" (Spec.colons (String c t))))).
        cbn [Str.remove_char].
        rewrite (canonical_not_colon _ Ha), (canonical_not_colon _ Hb).
        change (Ascii.eqb ":" ":") with true. cbn iota.
        now rewrite IH1. }
  apply Hboth.
Qed.

Lemma prefix_refl s : String.prefix s s = true.
Proof.
  induction s as [|a s IH]; simpl; [reflexivity|].
  destruct (ascii_dec a a); [exact IH|contradiction].
Qed.

Lemma contains_refl s : Str.contains s s = true.
Proof.
  destruct s as [|a s]; [reflexivity|].
  cbn [Str.contains]. now rewrite prefix_refl.
Qed.

Lemma contains_app pre s : Str.contains s (pre +:+ s) = true.
Proof.
  induction pre as [|a pre IH]; [apply contains_refl|].
  change (String a pre +:+ s) with (String a (pre +:+ s)).
  cbn [Str.contains]. rewrite IH. apply orb_true_r.
Qed.

(** The name given to a pending device matches the MAC it was made from. *)
Lemma pending_name_matches raw m :
  normalize_mac raw = Ok m ->
  Str.contains (Str.remove_char ":" m)
    (Str.remove_char "-"
       (Str.remove_char ":" (Str.lower ("probe-" +:+ Str.remove_char ":" m))))
  = true.
Proof.
  intros (c & _ & Hc & ->)%normalize_mac_canonical.
  rewrite (remove_colon_colons _ Hc).
  change (Str.lower ("probe-" +:+ c)) with ("probe-" +:+ Str.lower c).
  rewrite (canonical_lower _ Hc).
  change (Str.remove_char ":" ("probe-" +:+ c))
    with ("probe-" +:+ Str.remove_char ":" c).
  rewrite (canonical_remove_colon _ Hc).
  change (Str.remove_char "-" ("probe-" +:+ c))
    with ("probe" +:+ Str.remove_char "-" c).
  rewrite (canonical_remove_dash _ Hc).
  apply contains_app.
Qed.

(** ** The resolver after a device was added *)

Lemma devices_get_referenced reg i k :
  device_refs_ok_if (devices reg) i -> if_device i = Some k ->
  Dcim.devices_get reg k <> Ok None.
Proof.
  intros Href Hk. destruct (Href k Hk) as (d & Hin & Hid).
  unfold Dcim.devices_get, Dcim.answer.
  destruct (devices_get_raises reg); [discriminate|].
  intros [= Hnone].
  apply list_elem_of_In in Hin.
  pose proof (find_none _ _ Hnone d Hin) as Hfalse. simpl in Hfalse.
  apply Z.eqb_neq in Hfalse. contradiction.
Qed.

Lemma mac_objects_loop_referenced reg objs :
  Forall (fun o => forall i, assigned_object o = Some i ->
                             device_refs_ok_if (devices reg) i) objs ->
  mac_objects_loop reg objs <> Ok (Return None).
Proof.
  induction 1 as [|o objs Ho _ IH]; simpl; [discriminate|].
  destruct (assigned_object o) as [i|]; [|exact IH].
  destruct (if_device i) as [k|] eqn:Hk; [|exact IH].
  pose proof (devices_get_referenced reg i k (Ho i eq_refl) Hk) as Hget.
  destruct (Dcim.devices_get reg k) as [[d|]|e]; simpl;
    unfold mret, result_ret; congruence.
Qed.

Lemma interfaces_loop_referenced reg ifaces :
  Forall (device_refs_ok_if (devices reg)) ifaces ->
  interfaces_loop reg ifaces <> Ok (Return None).
Proof.
  induction 1 as [|i ifaces Hi _ IH]; simpl; [discriminate|].
  destruct (if_device i) as [k|] eqn:Hk; [|exact IH].
  pose proof (devices_get_referenced reg i k Hi Hk) as Hget.
  destruct (Dcim.devices_get reg k) as [[d|]|e]; simpl;
    unfold mret, result_ret; congruence.
Qed.

Lemma Forall_filter_list {A : Type} (P : A -> Prop) (f : A -> bool) l :
  Forall P l -> Forall P (List.filter f l).
Proof.
  induction 1 as [|x l Hx _ IH]; simpl; [constructor|].
  destruct (f x); [constructor|]; assumption.
Qed.

Lemma strategy1_referenced reg m :
  device_refs_ok reg -> strategy1 reg m <> Ok (Return None).
Proof.
  intros [_ Hrefs]. unfold strategy1, mac_objects_lookup, Dcim.mac_addresses_filter, Dcim.answer.
  destruct (mac_addresses_raises reg) as [e|]; simpl.
  { destruct (is_AttributeError e); discriminate. }
  pose proof (mac_objects_loop_referenced reg _
                (Forall_filter_list _
                   (fun o => String.eqb (mo_mac_address o) m) _ Hrefs)) as Hloop.
  destruct (mac_objects_loop reg _) as [x|e]; simpl; [congruence|].
  destruct (is_AttributeError e); discriminate.
Qed.

Lemma strategy2_referenced reg m :
  device_refs_ok reg -> strategy2 reg m <> Ok (Return None).
Proof.
  intros [Hrefs _]. unfold strategy2, interfaces_lookup, Dcim.interfaces_filter, Dcim.answer.
  destruct (interfaces_raises reg) as [e|]; simpl; [discriminate|].
  pose proof (interfaces_loop_referenced reg _
                (Forall_filter_list _
                   (fun i => match if_mac_address i with
                             | Some a => String.eqb a m
                             | None => false
                             end) _ Hrefs)) as Hloop.
  destruct (interfaces_loop reg _) as [x|e]; simpl; [congruence|discriminate].
Qed.

Lemma strategy3_never_none reg m : strategy3 reg m <> Ok (Return None).
Proof.
  unfold strategy3. destruct (Dcim.devices_filter reg m) as [[|d l]|e]; discriminate.
Qed.

(** A MAC that resolves to nothing was missed by each of the strategies. *)
Lemma find_device_none_inv reg m :
  device_refs_ok reg ->
  find_device_by_mac (Some reg) m = Ok None ->
  strategy1 reg m = Ok Next /\ strategy2 reg m = Ok Next
  /\ strategy3 reg m = Ok Next /\ strategy4 reg m = Ok None.
Proof.
  intros Hrefs. rewrite find_device_by_mac_chain.
  pose proof (strategy1_referenced reg m Hrefs) as H1.
  pose proof (strategy2_referenced reg m Hrefs) as H2.
  pose proof (strategy3_never_none reg m) as H3.
  destruct (strategy1 reg m) as [[x|]|e]; try discriminate.
  { intros [= ->]. contradiction. }
  destruct (strategy2 reg m) as [[x|]|e]; try discriminate.
  { intros [= ->]. contradiction. }
  destruct (strategy3 reg m) as [[x|]|e]; try discriminate.
  { intros [= ->]. contradiction. }
  auto.
Qed.

Lemma mac_objects_loop_stable reg ds' objs :
  (forall x, mac_objects_loop reg objs <> Ok (Return x)) ->
  mac_objects_loop (set_devices reg ds') objs = mac_objects_loop reg objs.
Proof.
  induction objs as [|o objs IH]; simpl; [reflexivity|].
  destruct (assigned_object o) as [i|]; [|exact IH].
  destruct (if_device i) as [k|]; [|exact IH].
  unfold Dcim.devices_get, Dcim.answer. simpl.
  destruct (devices_get_raises reg); [reflexivity|]. simpl.
  intros H. now contradiction (H (List.find (fun d => Z.eqb (dev_id d) k) (devices reg))).
Qed.

Lemma interfaces_loop_stable reg ds' ifaces :
  (forall x, interfaces_loop reg ifaces <> Ok (Return x)) ->
  interfaces_loop (set_devices reg ds') ifaces = interfaces_loop reg ifaces.
Proof.
  induction ifaces as [|i ifaces IH]; simpl; [reflexivity|].
  destruct (if_device i) as [k|]; [|exact IH].
  unfold Dcim.devices_get, Dcim.answer. simpl.
  destruct (devices_get_raises reg); [reflexivity|]. simpl.
  intros H. now contradiction (H (List.find (fun d => Z.eqb (dev_id d) k) (devices reg))).
Qed.

Lemma strategy1_stable reg ds' m :
  strategy1 reg m = Ok Next -> strategy1 (set_devices reg ds') m = Ok Next.
Proof.
  unfold strategy1, mac_objects_lookup, Dcim.mac_addresses_filter, Dcim.answer. simpl.
  destruct (mac_addresses_raises reg) as [e|]; simpl; [trivial|].
  intros H. rewrite mac_objects_loop_stable; [exact H|].
  intros x Hx. rewrite Hx in H. discriminate.
Qed.

Lemma strategy2_stable reg ds' m :
  strategy2 reg m = Ok Next -> strategy2 (set_devices reg ds') m = Ok Next.
Proof.
  unfold strategy2, interfaces_lookup, Dcim.interfaces_filter, Dcim.answer. simpl.
  destruct (interfaces_raises reg) as [e|]; simpl; [trivial|].
  intros H. rewrite interfaces_loop_stable; [exact H|].
  intros x Hx. rewrite Hx in H. discriminate.
Qed.

Lemma strategy3_stable reg d m :
  Dcim.cf_mac_address_is m d = false ->
  strategy3 reg m = Ok Next ->
  strategy3 (set_devices reg (devices reg ++ [d])) m = Ok Next.
Proof.
  intros Hd. unfold strategy3, Dcim.devices_filter, Dcim.answer. simpl.
  destruct (devices_filter_raises reg); simpl; [trivial|].
  rewrite List.filter_app. simpl. rewrite Hd, app_nil_r. trivial.
Qed.

Lemma names_loop_app mac_clean ds d :
  names_loop mac_clean ds = Ok None ->
  names_loop mac_clean (ds ++ [d]) = names_loop mac_clean [d].
Proof.
  induction ds as [|x ds IH]; [reflexivity|].
  cbn [names_loop app]. destruct (dev_name x); [|discriminate].
  destruct (Str.contains _ _); [discriminate|exact IH].
Qed.

(** After [request_port] created the pending device for a MAC that resolved
    to nothing, the MAC resolves to that device. *)
Lemma find_pending_device reg raw m :
  normalize_mac raw = Ok m ->
  device_refs_ok reg ->
  find_device_by_mac (Some reg) m = Ok None ->
  find_device_by_mac
    (Some (set_devices reg (devices reg ++ [pending_device reg m]))) m
  = Ok (Some (pending_device reg m)).
Proof.
  intros Hn Hrefs (H1 & H2 & H3 & H4)%find_device_none_inv; [|exact Hrefs].
  rewrite find_device_by_mac_chain.
  rewrite (strategy1_stable _ _ _ H1), (strategy2_stable _ _ _ H2).
  rewrite (strategy3_stable _ (pending_device reg m) _ eq_refl H3).
  revert H4. unfold strategy4, Dcim.devices_all, Dcim.answer. simpl.
  destruct (devices_all_raises reg); simpl; [discriminate|].
  intros H4. rewrite (names_loop_app _ _ _ H4).
  cbn [names_loop pending_device dev_name].
  now rewrite (pending_name_matches _ _ Hn).
Qed.

Lemma strategy4_ok reg m x :
  strategy4 reg m = Ok x -> devices_all_raises reg = None.
Proof.
  unfold strategy4, Dcim.devices_all, Dcim.answer.
  destruct (devices_all_raises reg); [discriminate|reflexivity].
Qed.

Lemma normalized_without_separators raw m :
  normalize_mac raw = Ok m ->
  Str.remove_char ":" m = Str.strip_separators (Str.lower raw).
Proof.
  rewrite normalize_mac_unfold. cbv zeta.
  destruct (_ =? _)%nat; [|discriminate]. intros [= <-].
  apply remove_colon_colons, strip_lower_canonical.
Qed.

(** ** Asking twice *)


Lemma serving_refs_ok ds : device_refs_ok (serving ds [] []).
Proof. split; constructor. Qed.


(** ** Errors in the resolver *)

Lemma strategy1_skips reg m :
  mac_objects_lookup reg m = Raise AttributeError -> strategy1 reg m = Ok Next.
Proof. unfold strategy1. now intros ->. Qed.

Lemma strategy1_propagates reg m e :
  e <> AttributeError ->
  mac_objects_lookup reg m = Raise e ->
  find_device_by_mac (Some reg) m = Raise e.
Proof.
  intros He H. rewrite find_device_by_mac_chain. unfold strategy1. rewrite H.
  simpl. destruct e; try reflexivity. contradiction.
Qed.

Lemma strategy2_swallows reg m e :
  interfaces_lookup reg m = Raise e -> strategy2 reg m = Ok Next.
Proof. unfold strategy2. now intros ->. Qed.

(** C5, as the code has it: the strategies run in order and the first that
    returns a device ends the search; a strategy with no match hands over
    to the next one; in strategy 1 an [AttributeError] (the registry has no
    MAC address objects) is skipped and any other exception propagates;
    whatever strategy 2 raises is dropped and strategy 3 runs; whatever
    strategies 3 and 4 raise propagates. *)
Theorem resolver_error_policy reg m :
  (mac_addresses_raises reg = Some AttributeError -> strategy1 reg m = Ok Next)
  /\ (mac_objects_lookup reg m = Raise AttributeError -> strategy1 reg m = Ok Next)
  /\ (Dcim.mac_addresses_filter reg m = Ok [] -> strategy1 reg m = Ok Next)
  /\ (Dcim.interfaces_filter reg m = Ok [] -> strategy2 reg m = Ok Next)
  /\ (Dcim.devices_filter reg m = Ok [] -> strategy3 reg m = Ok Next)
  /\ (forall e, e <> AttributeError ->
                mac_objects_lookup reg m = Raise e ->
                find_device_by_mac (Some reg) m = Raise e)
  /\ (forall e, interfaces_lookup reg m = Raise e -> strategy2 reg m = Ok Next)
  /\ (forall d, strategy1 reg m = Ok (Return d) ->
                find_device_by_mac (Some reg) m = Ok d)
  /\ (forall d, strategy1 reg m = Ok Next -> strategy2 reg m = Ok (Return d) ->
                find_device_by_mac (Some reg) m = Ok d)
  /\ (strategy1 reg m = Ok Next -> strategy2 reg m = Ok Next ->
      forall e, Dcim.devices_filter reg m = Raise e ->
                find_device_by_mac (Some reg) m = Raise e)
  /\ (strategy1 reg m = Ok Next -> strategy2 reg m = Ok Next ->
      forall d ds, Dcim.devices_filter reg m = Ok (d :: ds) ->
                   find_device_by_mac (Some reg) m = Ok (Some d))
  /\ (strategy1 reg m = Ok Next -> strategy2 reg m = Ok Next ->
      strategy3 reg m = Ok Next ->
      find_device_by_mac (Some reg) m = strategy4 reg m)
  /\ (forall e, devices_all_raises reg = Some e -> strategy4 reg m = Raise e).
Proof.
  repeat apply conj.
  - intros H. apply strategy1_skips.
    unfold mac_objects_lookup, Dcim.mac_addresses_filter. now rewrite H.
  - apply strategy1_skips.
  - intros H. unfold strategy1, mac_objects_lookup. now rewrite H.
  - intros H. unfold strategy2, interfaces_lookup. now rewrite H.
  - intros H. unfold strategy3. now rewrite H.
  - intros e. apply strategy1_propagates.
  - intros e. apply strategy2_swallows.
  - intros d H. rewrite find_device_by_mac_chain. now rewrite H.
  - intros d H1 H2. rewrite find_device_by_mac_chain. now rewrite H1, H2.
  - intros H1 H2 e H3. rewrite find_device_by_mac_chain, H1, H2.
    unfold strategy3. now rewrite H3.
  - intros H1 H2 d ds H3. rewrite find_device_by_mac_chain, H1, H2.
    unfold strategy3. now rewrite H3.
  - intros H1 H2 H3. rewrite find_device_by_mac_chain. now rewrite H1, H2, H3.
  - intros e H. unfold strategy4, Dcim.devices_all. now rewrite H.
Qed.

(** On a registry of the older schema the MAC resolves through the
    interfaces; a failure of the MAC address endpoint that is not an
    [AttributeError] ends the resolution. *)
Lemma resolver_error_policy_witness :
  strategy1 legacy "aa:bb:cc:dd:ee:ff" = Ok Next
  /\ find_device_by_mac (Some legacy) "aa:bb:cc:dd:ee:ff"
     = Ok (Some (probe 2 "edge-probe" (with_port (PInt 10002))))
  /\ find_device_by_mac (Some flaky_mac_addresses) "aa:bb:cc:dd:ee:ff"
     = Raise ConnectionError.
Proof.
  destruct (resolver_error_policy legacy "aa:bb:cc:dd:ee:ff")
    as (Hskip & _ & _ & _ & _ & _ & _ & _ & Hsecond & _).
  destruct (resolver_error_policy flaky_mac_addresses "aa:bb:cc:dd:ee:ff")
    as (_ & _ & _ & _ & _ & Hraise & _).
  split; [apply Hskip; reflexivity|].
  split; [apply Hsecond; [apply Hskip|]; reflexivity|].
  apply Hraise; [discriminate|reflexivity].
Defined.

(** C5 as stated fails: the interface endpoint raises a connection error,
    which is no schema mismatch, and the resolver carries on; it answers
    from the later strategies instead of raising. *)
Lemma interface_error_is_swallowed :
  Dcim.interfaces_filter flaky_interfaces "aa:bb:cc:dd:ee:ff" = Raise ConnectionError
  /\ strategy1 flaky_interfaces "aa:bb:cc:dd:ee:ff" = Ok Next
  /\ find_device_by_mac (Some flaky_interfaces) "aa:bb:cc:dd:ee:ff" = Ok None
  /\ find_device_by_mac (Some flaky_interfaces) "aa:bb:cc:dd:ee:ff"
     <> Raise ConnectionError.
Proof. repeat split; try reflexivity. discriminate. Qed.

(** ** Health *)

(** C8, as amended: [GET /health] never fails.  Whatever the state of
    [nb] and of the registry behind it, it answers 200 with a body that
    holds a status, always [healthy], the time, and a boolean that tells
    whether the connection object [nb] was set up at start, [false]
    without one.  It makes no request to the registry: the answer is the
    same for every registry behind [nb]. *)
Theorem health_check_never_fails nb now :
  exists body,
    health_check nb now = Ok body
    /\ GET_health nb now = (HTTP_200_OK, Some body)
    /\ status body = "healthy"
    /\ health_timestamp body = now
    /\ netbox_connected body = match nb with Some _ => true | None => false end
    /\ forall reg reg',
         nb = Some reg -> GET_health (Some reg') now = GET_health nb now.
Proof.
  eexists. split; [reflexivity|]. split; [reflexivity|].
  split; [reflexivity|]. split; [reflexivity|].
  split; [destruct nb; reflexivity|].
  now intros reg reg' ->.
Qed.

(** C8 as stated fails: behind a connection object that was set up, a
    registry none of whose endpoints answers is reported as connected and
    with the status [healthy], in the very body that a registry that
    answers gets, while a request for a port on it is answered 500.  The
    flag does not report the reachability of the registry, and no degraded
    state is reported. *)
Lemma unreachable_registry_reported_connected :
  reachable (Some unreachable) = false
  /\ Dcim.devices_all unreachable = Raise ConnectionError
  /\ (GET_request_port (Some unreachable) "2026-01-01T00:00:00"
        "aa:bb:cc:dd:ee:ff").1
     = (HTTP_500_INTERNAL_SERVER_ERROR, None)
  /\ GET_health (Some unreachable) "2026-01-01T00:00:00"
     = (HTTP_200_OK,
        Some {| status := "healthy"; netbox_connected := true;
                health_timestamp := "2026-01-01T00:00:00" |})
  /\ GET_health (Some unreachable) "2026-01-01T00:00:00"
     = GET_health (Some empty_registry) "2026-01-01T00:00:00"
  /\ ~ (forall nb now body,
          health_check nb now = Ok body -> netbox_connected body = reachable nb).
Proof.
  repeat split; try reflexivity.
  intros H. specialize (H (Some unreachable) "2026-01-01T00:00:00" _ eq_refl).
  discriminate H.
Qed.

(** ** Port uniqueness across calls *)

Lemma assigned_port_below_new_port reg p :
  p ∈ assigned_ports (devices reg) -> p < new_port reg.
Proof.
  intros H. unfold new_port.
  pose proof (max_port_fold_bound _ (DEFAULT_START_PORT - 1) _ H). lia.
Qed.

Lemma new_port_not_assigned reg : new_port reg ∉ assigned_ports (devices reg).
Proof. intros H%assigned_port_below_new_port. lia. Qed.

Lemma fresh_id_above ds x : x ∈ ds -> dev_id x < Dcim.fresh_id ds.
Proof.
  unfold Dcim.fresh_id. induction ds as [|d ds IH]; simpl.
  - intros H. inversion H.
  - intros [->|H]%elem_of_cons; [lia|]. specialize (IH H). lia.
Qed.

Lemma ids_unique_create reg m :
  NoDup (map dev_id (devices reg)) ->
  NoDup (map dev_id (devices reg ++ [pending_device reg m])).
Proof.
  intros H. rewrite map_app. apply NoDup_app. split; [exact H|].
  split; [|apply NoDup_singleton].
  intros i Hi [->|Hnil]%elem_of_cons; [|inversion Hnil].
  apply list_elem_of_In, in_map_iff in Hi as (x & Hx & Hin).
  apply list_elem_of_In, fresh_id_above in Hin. simpl in Hx. lia.
Qed.

Lemma port_uniqueness_create reg m :
  NoDup (assigned_ports (devices reg)) ->
  NoDup (assigned_ports (devices reg ++ [pending_device reg m])).
Proof.
  intros H. unfold assigned_ports. rewrite omap_app. simpl.
  rewrite assigned_port_pending_device.
  apply NoDup_app. split; [exact H|]. split; [|apply NoDup_singleton].
  intros p Hp [->|Hnil]%elem_of_cons; [|inversion Hnil].
  now apply new_port_not_assigned in Hp.
Qed.

Lemma new_port_create reg m :
  new_port reg < new_port (set_devices reg (devices reg ++ [pending_device reg m])).
Proof.
  apply assigned_port_below_new_port. simpl.
  unfold assigned_ports. rewrite omap_app. simpl.
  rewrite assigned_port_pending_device.
  apply elem_of_app. right. apply list_elem_of_here.
Qed.

Lemma saved_absent r l :
  (forall x, x ∈ l -> dev_id x <> dev_id r) -> Dcim.saved r l = l.
Proof.
  induction l as [|x l IH]; intros H; simpl; [reflexivity|].
  rewrite IH by (intros y Hy; apply H, list_elem_of_further, Hy).
  destruct (Z.eqb_spec (dev_id x) (dev_id r)) as [E|_]; [|reflexivity].
  now contradiction (H x (list_elem_of_here _ _)).
Qed.

Lemma saved_split r d l1 l2 :
  NoDup (map dev_id (l1 ++ d :: l2)) -> dev_id r = dev_id d ->
  Dcim.saved r (l1 ++ d :: l2) = l1 ++ set_custom_fields d (custom_fields r) :: l2.
Proof.
  intros Hnd Hid. rewrite map_app in Hnd. simpl in Hnd.
  apply NoDup_app in Hnd as (_ & Hl1 & [Hl2 _]%NoDup_cons).
  unfold Dcim.saved at 1. rewrite map_app. simpl.
  fold (Dcim.saved r l1). fold (Dcim.saved r l2).
  rewrite Hid, Z.eqb_refl.
  rewrite !saved_absent; [reflexivity| |].
  - intros x Hx E. apply Hl2, list_elem_of_In, in_map_iff.
    exists x. split; [congruence|now apply list_elem_of_In].
  - intros x Hx E. apply (Hl1 (dev_id x)).
    + apply list_elem_of_In, in_map_iff. exists x.
      split; [reflexivity|now apply list_elem_of_In].
    + rewrite E, Hid. apply list_elem_of_here.
Qed.

Lemma saved_with_new_port reg d l1 l2 :
  devices reg = l1 ++ d :: l2 ->
  NoDup (map dev_id (devices reg)) ->
  Dcim.saved (with_new_port reg d) (devices reg) = l1 ++ with_new_port reg d :: l2.
Proof.
  intros E Hnd. rewrite E in Hnd |- * at 1.
  now rewrite (saved_split _ d l1 l2 Hnd).
Qed.

Lemma port_uniqueness_update reg d :
  d ∈ devices reg -> assigned_port d = None ->
  NoDup (map dev_id (devices reg)) ->
  NoDup (assigned_ports (devices reg)) ->
  NoDup (assigned_ports (Dcim.saved (with_new_port reg d) (devices reg)))
  /\ new_port reg ∈ assigned_ports (Dcim.saved (with_new_port reg d) (devices reg)).
Proof.
  intros Hin Hnone Hids Hports.
  destruct (list_elem_of_split _ _ Hin) as (l1 & l2 & E).
  rewrite (saved_with_new_port _ _ _ _ E Hids).
  pose proof (new_port_not_assigned reg) as Hfresh.
  rewrite E in Hports, Hfresh. unfold assigned_ports in *.
  rewrite omap_app in Hports, Hfresh |- *. simpl in Hports, Hfresh |- *.
  rewrite Hnone in Hports, Hfresh. rewrite assigned_port_with_new_port.
  split.
  - apply NoDup_app in Hports as (H1 & H12 & H2).
    apply NoDup_app. split; [exact H1|]. split.
    + intros p Hp [->|Hp2]%elem_of_cons; [|now apply (H12 p)].
      apply Hfresh, elem_of_app. now left.
    + apply NoDup_cons. split; [|exact H2].
      intros Hp. apply Hfresh, elem_of_app. now right.
  - apply elem_of_app. right. apply list_elem_of_here.
Qed.

Lemma request_port_raise_state nb now raw e nb' :
  request_port nb now raw = (Raise e, nb') -> nb' = nb.
Proof.
  unfold request_port, try_assign_new_port.
  destruct (normalize_mac raw) as [m|[]]; try (now intros [= _ <-]).
  destruct nb as [reg|]; [|now intros [= _ <-]].
  destruct (find_device_by_mac (Some reg) m) as [[d|]|]; try (now intros [= _ <-]).
  - cbv zeta. destruct (_ && _); [discriminate|].
    destruct (assign_new_port reg now m (Some d)) as [[]|];
      [discriminate|now intros [= _ <-]].
  - destruct (assign_new_port reg now m None) as [[]|];
      [discriminate|now intros [= _ <-]].
Qed.

(** One call keeps the stored ports and ids pairwise distinct, and a call
    that allocates hands out the next port and moves the next port up. *)
Lemma request_port_invariant nb now raw r nb' :
  request_port nb now raw = (r, nb') ->
  port_uniqueness nb -> ids_unique nb ->
  port_uniqueness nb' /\ ids_unique nb'
  /\ (forall reg, nb = Some reg ->
        exists reg', nb' = Some reg' /\ new_port reg <= new_port reg'
                     /\ forall resp, r = Ok resp -> existing resp = false ->
                          port resp = new_port reg /\ new_port reg < new_port reg')
  /\ (nb = None -> nb' = None /\ forall resp, r <> Ok resp).
Proof.
  intros H Hports Hids.
  destruct r as [resp|e].
  2:{ apply request_port_raise_state in H as ->.
      split; [exact Hports|]. split; [exact Hids|]. split.
      - intros reg ->. exists reg. split; [reflexivity|].
        split; [lia|discriminate].
      - intros ->. split; [reflexivity|discriminate]. }
  apply request_port_ok_inv in H
    as (m & reg & dev & Hn & -> & Hf & [(d & p & -> & Hp & -> & ->)|(Hnone & reg' & Ha & ->)]).
  { split; [exact Hports|]. split; [exact Hids|]. split; [|discriminate].
    intros ? [= <-]. exists reg. split; [reflexivity|]. split; [lia|].
    intros ? [= <-]. discriminate. }
  apply assign_new_port_inv in Ha as (_ & _ & Hport & _ & Hdev).
  simpl in Hports, Hids.
  assert (port_uniqueness (Some reg') /\ ids_unique (Some reg')
          /\ new_port reg < new_port reg') as (Hports' & Hids' & Hlt).
  { destruct dev as [d|].
    - destruct Hdev as (_ & -> & _).
      pose proof (find_device_in_registry _ _ _ Hf) as Hin.
      destruct (port_uniqueness_update reg d Hin Hnone Hids Hports) as [Hnd Hnew].
      simpl. split; [exact Hnd|]. split; [now rewrite saved_ids|].
      now apply assigned_port_below_new_port.
    - destruct Hdev as (_ & ->). simpl.
      split; [now apply port_uniqueness_create|].
      split; [now apply ids_unique_create|apply new_port_create]. }
  split; [exact Hports'|]. split; [exact Hids'|]. split; [|discriminate].
  intros ? [= <-]. exists reg'. split; [reflexivity|]. split; [lia|].
  intros ? [= <-] _. split; [exact Hport|exact Hlt].
Qed.

(** ** The loop *)

Lemma request_port_task_resume now raw nb nb' out :
  resume (request_port_task now raw) nb = (nb', out) ->
  exists r, out = Finished r /\ request_port nb now raw = (r, nb').
Proof.
  simpl. destruct (request_port nb now raw) as [r nb0].
  intros [= <- <-]. eauto.
Qed.

Lemma allocated_ports_cons r rs :
  allocated_ports (r :: rs) =
  match r with
  | Ok resp => if existing resp then allocated_ports rs
               else port resp :: allocated_ports rs
  | Raise _ => allocated_ports rs
  end.
Proof.
  unfold allocated_ports. simpl.
  destruct r as [resp|]; [|reflexivity]. now destruct (existing resp).
Qed.

Lemma loop_step_invariant st st' :
  loop_invariant st -> loop_step st st' -> loop_invariant st'.
Proof.
  intros (Htasks & Hports & Hids & Hnd & Hbelow) Hstep.
  destruct Hstep as [nb nb' before t after rs r Hres|nb nb' before t t' after rs Hres];
    simpl in *;
    apply Forall_app in Htasks as [Hbefore Htasks];
    apply Forall_cons in Htasks as [(now & raw & ->) Hafter];
    apply request_port_task_resume in Hres as (r0 & Hout & Hcall);
    [injection Hout as ->|discriminate].
  destruct (request_port_invariant _ _ _ _ _ Hcall Hports Hids)
    as (Hports' & Hids' & Hsome & Hnone).
  unfold loop_invariant. cbn [pending registry responses].
  split; [apply Forall_app; now split|].
  split; [exact Hports'|]. split; [exact Hids'|].
  rewrite allocated_ports_cons.
  destruct nb as [reg|].
  - destruct (Hsome reg eq_refl) as (reg' & -> & Hle & Halloc).
    assert (Hold : forall p, p ∈ allocated_ports rs -> p < new_port reg).
    { intros p Hp. destruct (Hbelow p Hp) as (reg0 & [= <-] & Hlt). exact Hlt. }
    destruct r0 as [resp|e].
    + destruct (existing resp) eqn:He.
      * split; [exact Hnd|].
        intros p Hp. exists reg'. split; [reflexivity|].
        specialize (Hold p Hp). lia.
      * destruct (Halloc resp eq_refl He) as [Hport Hlt].
        split.
        -- apply NoDup_cons. split; [|exact Hnd].
           intros Hp%Hold. lia.
        -- intros p [->|Hp]%elem_of_cons; exists reg';
             (split; [reflexivity|]); [lia|].
           specialize (Hold p Hp). lia.
    + split; [exact Hnd|].
      intros p Hp. exists reg'. split; [reflexivity|].
      specialize (Hold p Hp). lia.
  - destruct (Hnone eq_refl) as [-> Hraise].
    destruct r0 as [resp|e]; [now contradiction (Hraise resp)|].
    split; [exact Hnd|].
    intros p Hp. destruct (Hbelow p Hp) as (reg0 & [=] & _).
Qed.

Lemma loop_invariant_start nb calls :
  port_uniqueness nb -> ids_unique nb ->
  loop_invariant (LoopState nb (map (fun c => request_port_task c.1 c.2) calls) []).
Proof.
  intros Hports Hids. unfold loop_invariant. simpl.
  split.
  { apply Forall_forall. intros t Ht.
    apply list_elem_of_In, in_map_iff in Ht as (c & <- & _). eauto. }
  split; [exact Hports|]. split; [exact Hids|].
  split; [apply NoDup_nil_2|].
  intros p Hp. inversion Hp.
Qed.

(** [run_loop] takes turns of the loop. *)
Lemma run_loop_steps picks st : rtc loop_step st (run_loop picks st).
Proof.
  revert st. induction picks as [|i picks IH]; intros st; simpl; [apply rtc_refl|].
  destruct (pending st !! i) as [t|] eqn:Ht; [|apply IH].
  destruct (resume t (registry st)) as [nb' out] eqn:Hres.
  eapply rtc_l; [|apply IH].
  destruct st as [nb ts rs]. simpl in *.
  rewrite <- (take_drop_middle _ _ _ Ht) at 1.
  destruct out as [r|t'].
  - rewrite delete_take_drop. now apply loop_finish.
  - rewrite insert_take_drop by (now apply lookup_lt_Some in Ht).
    now apply loop_suspend.
Qed.

(** C2: on the event loop, where a call to [request_port] runs from start
    to end before another one is resumed, the calls may be taken in any
    order: if the stored ports and ids were pairwise distinct before, the
    stored ports are pairwise distinct after every turn, and so are the
    ports handed out with [existing = false]. *)
Theorem event_loop_port_uniqueness nb calls st :
  port_uniqueness nb ->
  ids_unique nb ->
  rtc loop_step
    (LoopState nb (map (fun c => request_port_task c.1 c.2) calls) []) st ->
  port_uniqueness (registry st)
  /\ NoDup (allocated_ports (responses st)).
Proof.
  intros Hports Hids Hrun.
  assert (loop_invariant st) as (_ & H1 & _ & H2 & _); [|now split].
  revert st Hrun. apply rtc_ind_r.
  - now apply loop_invariant_start.
  - intros y z _ Hstep Hy. exact (loop_step_invariant _ _ Hy Hstep).
Qed.

(** Two first requests for distinct MACs, the second one served first. *)
Lemma event_loop_port_uniqueness_witness :
  allocated_ports (responses (run_loop [1%nat; 0%nat] two_requests))
  = [10007; 10006]
  /\ pending (run_loop [1%nat; 0%nat] two_requests) = []
  /\ port_uniqueness (registry (run_loop [1%nat; 0%nat] two_requests))
  /\ NoDup (allocated_ports (responses (run_loop [1%nat; 0%nat] two_requests))).
Proof.
  split; [reflexivity|]. split; [reflexivity|].
  apply (event_loop_port_uniqueness (Some three_probes)
           [("2026-01-01T00:00:00", "aa:bb:cc:dd:ee:01");
            ("2026-01-01T00:00:00", "aa:bb:cc:dd:ee:02")]).
  - unfold port_uniqueness. apply (bool_decide_unpack _). vm_compute. reflexivity.
  - unfold ids_unique. apply (bool_decide_unpack _). vm_compute. reflexivity.
  - apply (run_loop_steps [1%nat; 0%nat] two_requests).
Defined.

(** * Further properties of the service *)

(** ** Failures *)

Lemma try_assign_new_port_raises nb reg now m dev e :
  assign_new_port reg now m dev = Raise e ->
  try_assign_new_port nb reg now m dev
  = (Raise (HTTPException HTTP_500_INTERNAL_SERVER_ERROR), nb).
Proof. unfold try_assign_new_port. now intros ->. Qed.

Lemma assign_new_port_raises reg now m dev e :
  devices_all_raises reg = Some e
  \/ (dev = None /\ devices_create_raises reg = Some e)
  \/ ((exists d, dev = Some d) /\ save_raises reg = Some e) ->
  exists e', assign_new_port reg now m dev = Raise e'.
Proof.
  unfold assign_new_port, get_max_assigned_port, Dcim.devices_all, Dcim.answer.
  intros [H|[[-> H]|[[d ->] H]]].
  - rewrite H. eauto.
  - destruct (devices_all_raises reg); simpl; [eauto|].
    unfold Dcim.devices_create, Dcim.answer. rewrite H. eauto.
  - destruct (devices_all_raises reg); simpl; [eauto|].
    unfold Dcim.save. simpl. rewrite H. eauto.
Qed.

(** X2: the errors of [request_port], in the order the code meets them: a
    MAC of the wrong length is answered 400 before the registry is looked
    at, even when there is no connection; a valid MAC without a connection
    is answered 503; an exception of the resolver reaches the global
    handler, which answers 500; and on the write path a failure of the
    device listing, of the creation or of the save is answered 500.  The
    registry is unchanged in all of them. *)
Theorem request_port_error_answers nb now raw :
  (forall e, normalize_mac raw = Raise e ->
     GET_request_port nb now raw = ((HTTP_400_BAD_REQUEST, None), nb))
  /\ (forall m, normalize_mac raw = Ok m -> nb = None ->
       GET_request_port nb now raw = ((HTTP_503_SERVICE_UNAVAILABLE, None), nb))
  /\ (forall m reg e,
       normalize_mac raw = Ok m -> nb = Some reg ->
       find_device_by_mac nb m = Raise e ->
       (forall code, e <> HTTPException code) ->
       GET_request_port nb now raw = ((HTTP_500_INTERNAL_SERVER_ERROR, None), nb))
  /\ (forall m reg dev e,
       normalize_mac raw = Ok m -> nb = Some reg ->
       find_device_by_mac nb m = Ok dev ->
       dev ≫= assigned_port = None ->
       devices_all_raises reg = Some e
       \/ (dev = None /\ devices_create_raises reg = Some e)
       \/ ((exists d, dev = Some d) /\ save_raises reg = Some e) ->
       GET_request_port nb now raw = ((HTTP_500_INTERNAL_SERVER_ERROR, None), nb)).
Proof.
  unfold GET_request_port. repeat apply conj.
  - intros e He. unfold request_port. rewrite He.
    rewrite normalize_mac_unfold in He. cbv zeta in He.
    destruct (_ =? _)%nat; [discriminate|]. now injection He as <-.
  - intros m Hm ->. unfold request_port. now rewrite Hm.
  - intros m reg e Hm -> Hf Hcode. unfold request_port. rewrite Hm, Hf.
    destruct e; try reflexivity. now contradiction (Hcode status_code).
  - intros m reg dev e Hm -> Hf Hnone Hfault.
    rewrite (request_port_allocate _ now _ _ _ Hm Hf Hnone).
    destruct (assign_new_port_raises reg now m dev e Hfault) as [e' He'].
    now rewrite (try_assign_new_port_raises _ _ _ _ _ _ He').
Qed.

Lemma request_port_error_answers_witness :
  GET_request_port None "2026-01-01T00:00:00" "aabbcc"
  = ((HTTP_400_BAD_REQUEST, None), None)
  /\ GET_request_port None "2026-01-01T00:00:00" "aa:bb:cc:dd:ee:ff"
     = ((HTTP_503_SERVICE_UNAVAILABLE, None), None)
  /\ GET_request_port (Some read_only) "2026-01-01T00:00:00" "00-11-22-33-44-55"
     = ((HTTP_500_INTERNAL_SERVER_ERROR, None), Some read_only).
Proof.
  destruct (request_port_error_answers None "2026-01-01T00:00:00" "aabbcc")
    as (H400 & _).
  destruct (request_port_error_answers None "2026-01-01T00:00:00"
              "aa:bb:cc:dd:ee:ff") as (_ & H503 & _).
  destruct (request_port_error_answers (Some read_only) "2026-01-01T00:00:00"
              "00-11-22-33-44-55") as (_ & _ & _ & H500).
  split; [|split].
  - apply (H400 ValueError). reflexivity.
  - apply (H503 "aa:bb:cc:dd:ee:ff"); reflexivity.
  - apply (H500 "00:11:22:33:44:55" read_only None RequestError);
      [reflexivity..|]. right. left. split; reflexivity.
Defined.

(** ** What an allocation hands out and what it leaves alone *)

Lemma max_port_step_cases acc d :
  max_port_step acc d =
  match assigned_port d with
  | Some p => Z.max acc p
  | None => acc
  end.
Proof. unfold max_port_step, assigned_port. now destruct (_ && _). Qed.

Lemma max_port_fold_attained ds acc :
  fold_left max_port_step ds acc = acc
  \/ fold_left max_port_step ds acc ∈ assigned_ports ds.
Proof.
  revert acc. induction ds as [|d ds IH]; intros acc; simpl; [now left|].
  unfold assigned_ports. simpl. fold (assigned_ports ds).
  rewrite max_port_step_cases.
  destruct (assigned_port d) as [p|]; simpl; [|apply IH].
  destruct (IH (Z.max acc p)) as [E|Hin].
  - rewrite E. destruct (Z.max_spec acc p) as [[_ ->]|[_ ->]];
      [right; apply list_elem_of_here|now left].
  - right. now apply list_elem_of_further.
Qed.

Lemma assigned_ports_member ds d p :
  d ∈ ds -> assigned_port d = Some p -> p ∈ assigned_ports ds.
Proof. intros Hin Hp. apply list_elem_of_omap. eauto. Qed.

(** X3: a port handed out with [existing = false] is at least the floor
    10001, is larger than every port the registry held before the call, and
    is held by a record of the registry after the call. *)
Theorem allocated_port_is_fresh nb now raw r nb' :
  request_port nb now raw = (Ok r, nb') ->
  existing r = false ->
  exists reg reg',
    nb = Some reg /\ nb' = Some reg'
    /\ DEFAULT_START_PORT <= port r
    /\ (forall p, p ∈ assigned_ports (devices reg) -> p < port r)
    /\ port r ∈ assigned_ports (devices reg').
Proof.
  intros H He.
  apply request_port_ok_inv in H
    as (m & reg & dev & Hn & -> & Hf & [(d & p & _ & _ & -> & _)|(Hnone & reg' & Ha & ->)]).
  { discriminate. }
  apply assign_new_port_inv in Ha as (_ & _ & Hport & _ & Hdev).
  exists reg, reg'. rewrite Hport.
  split; [reflexivity|]. split; [reflexivity|].
  split; [apply new_port_floor|].
  split; [intros p; apply assigned_port_below_new_port|].
  destruct dev as [d|].
  - destruct Hdev as (_ & -> & _). simpl.
    apply (assigned_ports_member _ (with_new_port reg d)).
    + apply saved_record, (find_device_in_registry _ _ _ Hf).
    + apply assigned_port_with_new_port.
  - destruct Hdev as (_ & ->). simpl.
    apply (assigned_ports_member _ (pending_device reg m)).
    + apply elem_of_app. right. apply list_elem_of_here.
    + apply assigned_port_pending_device.
Qed.

Lemma allocated_port_is_fresh_witness :
  exists r nb',
    request_port (Some unprovisioned) "2026-01-01T00:00:00" "AA-BB-CC-DD-EE-FF"
    = (Ok r, nb')
    /\ port r = 10002 /\ DEFAULT_START_PORT <= port r.
Proof.
  eexists _, _. split; [reflexivity|]. split; [reflexivity|].
  destruct (allocated_port_is_fresh (Some unprovisioned) "2026-01-01T00:00:00"
              "AA-BB-CC-DD-EE-FF" _ _ eq_refl eq_refl)
    as (reg & reg' & _ & _ & Hfloor & _).
  exact Hfloor.
Defined.

Lemma same_id_same_record ds x y :
  NoDup (map dev_id ds) -> x ∈ ds -> y ∈ ds -> dev_id x = dev_id y -> x = y.
Proof.
  induction ds as [|d ds IH]; simpl; intros Hnd Hx Hy E.
  - inversion Hx.
  - apply NoDup_cons in Hnd as [Hd Hnd].
    assert (Hmem : forall z, z ∈ ds -> dev_id z ∈ map dev_id ds).
    { intros z Hz. apply list_elem_of_In, in_map, list_elem_of_In, Hz. }
    apply elem_of_cons in Hx as [->|Hx]; apply elem_of_cons in Hy as [->|Hy].
    + reflexivity.
    + contradiction Hd. rewrite E. now apply Hmem.
    + contradiction Hd. rewrite <- E. now apply Hmem.
    + now apply IH.
Qed.

(** X4: whatever it answers, a call of [request_port] on a registry with
    distinct ids leaves every record that holds a port exactly as it was,
    removes no record and adds at most one. *)
Theorem request_port_keeps_assigned_records reg now raw r nb' :
  NoDup (map dev_id (devices reg)) ->
  request_port (Some reg) now raw = (r, nb') ->
  exists reg',
    nb' = Some reg'
    /\ (forall x, x ∈ devices reg -> is_Some (assigned_port x) ->
                  x ∈ devices reg')
    /\ (length (devices reg) <= length (devices reg') <= S (length (devices reg)))%nat.
Proof.
  intros Hids H.
  destruct r as [resp|e].
  2:{ apply request_port_raise_state in H as ->. exists reg.
      split; [reflexivity|]. split; [auto|lia]. }
  apply request_port_ok_inv in H
    as (m & reg0 & dev & Hn & [= <-] & Hf & [(d & p & _ & _ & _ & ->)|(Hnone & reg' & Ha & ->)]).
  { exists reg. split; [reflexivity|]. split; [auto|lia]. }
  apply assign_new_port_inv in Ha as (_ & _ & _ & _ & Hdev).
  exists reg'. split; [reflexivity|].
  destruct dev as [d|].
  - destruct Hdev as (_ & -> & _). simpl. split.
    + intros x Hx [p Hp]. apply saved_other; [exact Hx|].
      change (dev_id (with_new_port reg d)) with (dev_id d). intros E.
      pose proof (find_device_in_registry _ _ _ Hf) as Hd.
      rewrite (same_id_same_record _ _ _ Hids Hx Hd E) in Hp.
      simpl in Hnone. congruence.
    + unfold Dcim.saved. rewrite length_map. lia.
  - destruct Hdev as (_ & ->). simpl. split.
    + intros x Hx _. apply elem_of_app. now left.
    + rewrite length_app. simpl. lia.
Qed.

Lemma request_port_keeps_assigned_records_witness :
  exists reg',
    (request_port (Some unprovisioned) "2026-01-01T00:00:00" "AA-BB-CC-DD-EE-FF").2
    = Some reg'
    /\ probe 1 "probe-020000000001" (with_port (PInt 10001)) ∈ devices reg'
    /\ length (devices reg') = 2%nat.
Proof.
  destruct (request_port_keeps_assigned_records unprovisioned
              "2026-01-01T00:00:00" "AA-BB-CC-DD-EE-FF" _ _
              ltac:(apply (bool_decide_unpack _); vm_compute; reflexivity)
              eq_refl)
    as (reg' & E & Hkeep & _).
  exists reg'. split; [exact E|]. split.
  - apply Hkeep; [apply list_elem_of_here|]. exists 10001. reflexivity.
  - injection E as <-. reflexivity.
Defined.

(** X5: the maximum that [get_max_assigned_port] returns is at least
    10000, bounds every port held in the registry, and is either 10000 or
    a port that some record holds. *)
Theorem max_assigned_port_is_attained reg m :
  get_max_assigned_port (Some reg) = Ok m ->
  DEFAULT_START_PORT - 1 <= m
  /\ (forall p, p ∈ assigned_ports (devices reg) -> p <= m)
  /\ (m = DEFAULT_START_PORT - 1 \/ m ∈ assigned_ports (devices reg)).
Proof.
  unfold get_max_assigned_port, Dcim.devices_all, Dcim.answer.
  destruct (devices_all_raises reg); simpl; [discriminate|].
  intros [= <-]. split; [apply max_port_fold_ge|].
  split; [intros p; apply max_port_fold_bound|apply max_port_fold_attained].
Qed.

Lemma max_assigned_port_is_attained_witness :
  get_max_assigned_port (Some three_probes) = Ok 10005
  /\ 10005 ∈ assigned_ports (devices three_probes).
Proof.
  split; [reflexivity|].
  destruct (max_assigned_port_is_attained three_probes 10005 eq_refl)
    as (_ & _ & [E|Hin]); [discriminate|exact Hin].
Defined.

(** X6: the MAC in an answer is the canonical form of the MAC asked for,
    it is its own canonical form, and asking again with it gives the answer
    that the original spelling gives. *)
Theorem answer_mac_is_canonical nb now raw r nb' :
  request_port nb now raw = (Ok r, nb') ->
  normalize_mac raw = Ok (mac r)
  /\ normalize_mac (mac r) = Ok (mac r)
  /\ request_port nb now (mac r) = request_port nb now raw.
Proof.
  intros H.
  assert (Hm : normalize_mac raw = Ok (mac r)).
  { apply request_port_ok_inv in H
      as (m & reg & dev & Hn & _ & _ & [(d & p & _ & _ & -> & _)|(_ & reg' & Ha & _)]).
    - exact Hn.
    - apply assign_new_port_inv in Ha as (_ & <- & _). exact Hn. }
  assert (Hmm : normalize_mac (mac r) = Ok (mac r)).
  { destruct (normalize_mac_canonical _ _ Hm) as (c & Hlen & Hc & ->).
    rewrite normalize_mac_unfold. cbv zeta.
    now rewrite (strip_lower_colons _ Hc), Hlen. }
  split; [exact Hm|]. split; [exact Hmm|].
  unfold request_port. now rewrite Hm, Hmm.
Qed.

Lemma answer_mac_is_canonical_witness :
  exists r nb',
    request_port (Some three_probes) "2026-01-01T00:00:00" "0200.0000.0002"
    = (Ok r, nb')
    /\ mac r = "02:00:00:00:00:02"
    /\ request_port (Some three_probes) "2026-01-01T00:00:00" (mac r)
       = (Ok r, nb').
Proof.
  eexists _, _. split; [reflexivity|]. split; [reflexivity|].
  destruct (answer_mac_is_canonical (Some three_probes) "2026-01-01T00:00:00"
              "0200.0000.0002" _ _ eq_refl) as (_ & _ & H).
  exact H.
Defined.

(** ** The scan of the device names *)

Lemma names_loop_first mac_clean ds d :
  names_loop mac_clean ds = Ok (Some d) ->
  exists before after name,
    ds = before ++ d :: after
    /\ dev_name d = Some name /\ name_matches mac_clean name = true
    /\ Forall (fun x => exists n, dev_name x = Some n
                                  /\ name_matches mac_clean n = false) before.
Proof.
  induction ds as [|x ds IH]; simpl; [discriminate|].
  destruct (dev_name x) as [n|] eqn:En; [|discriminate].
  fold (name_matches mac_clean n).
  destruct (name_matches mac_clean n) eqn:Em.
  - intros [= ->]. exists [], ds, n. repeat split; auto.
  - intros (before & after & name & -> & Hd & Hm & Hb)%IH.
    exists (x :: before), after, name. repeat split; auto.
    constructor; eauto.
Qed.

Lemma names_loop_skip mac_clean before rest :
  Forall (fun x => exists n, dev_name x = Some n
                             /\ name_matches mac_clean n = false) before ->
  names_loop mac_clean (before ++ rest) = names_loop mac_clean rest.
Proof.
  induction 1 as [|x before (n & En & Em) _ IH]; [reflexivity|].
  simpl. rewrite En. fold (name_matches mac_clean n). now rewrite Em.
Qed.

(** X7: the device that the name scan (strategy 4) returns is the first
    stored device whose name, lowercased and without [:] and [-], contains
    the MAC without its colons; every device stored before it has a name
    that does not. *)
Theorem name_scan_returns_first_match reg m d :
  strategy4 reg m = Ok (Some d) ->
  exists before after name,
    devices reg = before ++ d :: after
    /\ dev_name d = Some name
    /\ name_matches (Str.remove_char ":" m) name = true
    /\ Forall (fun x => exists n, dev_name x = Some n
                 /\ name_matches (Str.remove_char ":" m) n = false) before.
Proof.
  unfold strategy4, Dcim.devices_all, Dcim.answer.
  destruct (devices_all_raises reg); simpl; [discriminate|].
  apply names_loop_first.
Qed.

Lemma name_scan_returns_first_match_witness :
  strategy4 unprovisioned "aa:bb:cc:dd:ee:ff"
  = Ok (Some (probe 7 "rack4-AA-BB-CC-DD-EE-FF" ∅))
  /\ exists name,
       dev_name (probe 7 "rack4-AA-BB-CC-DD-EE-FF" ∅) = Some name
       /\ name_matches "aabbccddeeff" name = true.
Proof.
  split; [reflexivity|].
  destruct (name_scan_returns_first_match unprovisioned "aa:bb:cc:dd:ee:ff"
              (probe 7 "rack4-AA-BB-CC-DD-EE-FF" ∅) eq_refl)
    as (before & after & name & _ & Hname & Hmatch & _).
  exists name. split; [exact Hname|exact Hmatch].
Defined.

(** X8: a stored device without a name stops the name scan: when no
    earlier strategy and no device stored before it matches, the resolver
    raises [AttributeError] and [request_port] answers 500 and writes
    nothing, even if a later device would match. *)
Theorem nameless_device_breaks_name_scan reg now raw m before x after :
  normalize_mac raw = Ok m ->
  strategy1 reg m = Ok Next ->
  strategy2 reg m = Ok Next ->
  strategy3 reg m = Ok Next ->
  devices_all_raises reg = None ->
  devices reg = before ++ x :: after ->
  dev_name x = None ->
  Forall (fun y => exists n, dev_name y = Some n
            /\ name_matches (Str.remove_char ":" m) n = false) before ->
  find_device_by_mac (Some reg) m = Raise AttributeError
  /\ GET_request_port (Some reg) now raw
     = ((HTTP_500_INTERNAL_SERVER_ERROR, None), Some reg).
Proof.
  intros Hn H1 H2 H3 Hall E Hx Hb.
  assert (Hf : find_device_by_mac (Some reg) m = Raise AttributeError).
  { rewrite find_device_by_mac_chain, H1, H2, H3.
    unfold strategy4, Dcim.devices_all, Dcim.answer. rewrite Hall. simpl.
    rewrite E, (names_loop_skip _ _ _ Hb). simpl. now rewrite Hx. }
  split; [exact Hf|].
  unfold GET_request_port, request_port. now rewrite Hn, Hf.
Qed.

Lemma nameless_device_breaks_name_scan_witness :
  find_device_by_mac (Some with_nameless_device) "aa:bb:cc:dd:ee:ff"
  = Raise AttributeError
  /\ GET_request_port (Some with_nameless_device) "2026-01-01T00:00:00"
       "AA:BB:CC:DD:EE:FF"
     = ((HTTP_500_INTERNAL_SERVER_ERROR, None), Some with_nameless_device).
Proof.
  apply (nameless_device_breaks_name_scan with_nameless_device
           "2026-01-01T00:00:00" "AA:BB:CC:DD:EE:FF" "aa:bb:cc:dd:ee:ff"
           [probe 1 "core-sw-01" (with_port (PInt 10001))]
           {| dev_id := 2; dev_name := None;
              dev_device_type := "patch-panel"; dev_role := "passive";
              dev_site := "lab"; dev_status := "active"; custom_fields := ∅ |}
           [probe 3 "probe-aabbccddeeff" (with_port (PInt 10002))]);
    try reflexivity.
  constructor; [|constructor]. exists "core-sw-01". split; reflexivity.
Defined.

(** * Properties of the scan parser *)

Lemma nmap_truthy_some (v : option string) :
  Nmap.truthy v = true -> exists s, v = Some s /\ s <> "".
Proof.
  destruct v as [s|]; simpl; [|discriminate].
  intros H. exists s. split; [reflexivity|].
  intros ->. discriminate.
Qed.

Lemma netbox_entry_fields t h e :
  Nmap.netbox_entry t h = Some e ->
  exists ip,
    Nmap.h_ip h = Some ip /\ ip <> ""
    /\ e !! "address" = Some (ip +:+ "/24")
    /\ e !! "tenant" = Some t
    /\ e !! "status" = Some "active"
    /\ e !! "dns_name"
       = (if Nmap.truthy (Nmap.h_hostname h) then Nmap.h_hostname h else None)
    /\ exists d, e !! "description" = Some ("Discovered via probe scan" +:+ d).
Proof.
  unfold Nmap.netbox_entry.
  destruct (Nmap.truthy (Nmap.h_ip h)) eqn:Hip; simpl; [|discriminate].
  destruct (nmap_truthy_some _ Hip) as (ip & Eip & Hne). rewrite Eip. simpl.
  intros [= <-]. exists ip.
  split; [reflexivity|]. split; [exact Hne|].
  destruct (Nmap.truthy (Nmap.h_hostname h)) eqn:Hh;
    [destruct (nmap_truthy_some _ Hh) as (hn & -> & _)|];
    destruct (Nmap.truthy (Nmap.h_mac h));
    destruct (Nmap.truthy (Nmap.h_vendor h));
    simplify_map_eq; repeat split; eauto.
Qed.

(** X9: [format_for_netbox] gives one entry for each host that has a
    non-empty IP, in the order of the hosts, and none for the others; the
    entry has the address [ip/24], the tenant passed in, the status
    [active], a description that starts with "Discovered via probe scan",
    and a [dns_name] exactly when the host has a non-empty hostname. *)
Theorem format_for_netbox_entries hosts t :
  Forall2
    (fun h e =>
       exists ip,
         Nmap.h_ip h = Some ip /\ ip <> ""
         /\ e !! "address" = Some (ip +:+ "/24")
         /\ e !! "tenant" = Some t
         /\ e !! "status" = Some "active"
         /\ e !! "dns_name"
            = (if Nmap.truthy (Nmap.h_hostname h) then Nmap.h_hostname h else None)
         /\ exists d, e !! "description" = Some ("Discovered via probe scan" +:+ d))
    (Nmap.with_ip hosts) (Nmap.format_for_netbox hosts t).
Proof.
  induction hosts as [|h hosts IH]; simpl; [constructor|].
  unfold Nmap.with_ip, Nmap.format_for_netbox in *. simpl.
  destruct (Nmap.netbox_entry t h) as [e|] eqn:He.
  - pose proof (netbox_entry_fields _ _ _ He) as Hfields.
    destruct Hfields as (ip & Hip & Hne & Hrest).
    assert (Nmap.truthy (Nmap.h_ip h) = true) as ->.
    { rewrite Hip. simpl. now destruct (String.eqb_spec ip ""). }
    constructor; [|exact IH]. exists ip. auto.
  - assert (Nmap.truthy (Nmap.h_ip h) = false) as ->; [|exact IH].
    unfold Nmap.netbox_entry in He.
    destruct (Nmap.truthy (Nmap.h_ip h)); [discriminate|reflexivity].
Qed.

Lemma host_entry_up host h :
  Nmap.host_entry host = Some h ->
  (Nmap.find_child "status" host ≫= fun e => Nmap.attrib e !! "state") = Some "up"
  /\ Nmap.h_status h = Some "up"
  /\ Nmap.h_ip h
     = (Nmap.find_descendant_with "address" "addrtype" "ipv4" host
          ≫= fun e => Nmap.attrib e !! "addr")
  /\ Nmap.h_mac h
     = (Nmap.find_descendant_with "address" "addrtype" "mac" host
          ≫= fun e => Nmap.attrib e !! "addr")
  /\ Nmap.truthy (Nmap.h_ip h) || Nmap.truthy (Nmap.h_mac h) = true.
Proof.
  unfold Nmap.host_entry. cbv zeta.
  destruct (bool_decide _) eqn:Hup; simpl; [|discriminate].
  apply bool_decide_eq_true in Hup.
  destruct (_ || _) eqn:Haddr; [|discriminate].
  intros [= <-]. simpl. rewrite Hup. auto.
Qed.

Lemma length_omap_le {A B : Type} (f : A -> option B) (l : list A) :
  (length (omap f l) <= length l)%nat.
Proof.
  induction l as [|x l IH]; [reflexivity|].
  change (omap f (x :: l))
    with (match f x with Some y => y :: omap f l | None => omap f l end).
  destruct (f x); simpl; lia.
Qed.

(** X10: every host that [parse_nmap_xml] returns has the state [up] and
    a non-empty IPv4 or MAC address, taken from the first matching
    [address] element below a [host] element of the file; hosts that are
    down, or that have no status element, are never returned. *)
Theorem parsed_hosts_are_up_and_addressed root :
  Forall
    (fun h =>
       Nmap.h_status h = Some "up"
       /\ Nmap.truthy (Nmap.h_ip h) || Nmap.truthy (Nmap.h_mac h) = true
       /\ exists host,
            host ∈ Nmap.descendants "host" root
            /\ Nmap.tag host = "host"
            /\ (Nmap.find_child "status" host ≫= fun e => Nmap.attrib e !! "state")
               = Some "up"
            /\ Nmap.h_ip h
               = (Nmap.find_descendant_with "address" "addrtype" "ipv4" host
                    ≫= fun e => Nmap.attrib e !! "addr"))
    (Nmap.parse_nmap_xml root)
  /\ (length (Nmap.parse_nmap_xml root)
      <= length (Nmap.descendants "host" root))%nat.
Proof.
  split; [|apply length_omap_le].
  apply Forall_forall. intros h Hh.
  apply list_elem_of_omap in Hh as (host & Hin & Hentry).
  destruct (host_entry_up _ _ Hentry) as (Hup & Hstatus & Hip & _ & Haddr).
  split; [exact Hstatus|]. split; [exact Haddr|].
  exists host. split; [exact Hin|]. split; [|auto].
  apply list_elem_of_In, filter_In in Hin as [_ Htag].
  now apply String.eqb_eq.
Qed.

(** X11: from the scan file to the import list: every entry that
    [format_for_netbox] makes of the parsed hosts carries the address, with
    [/24] appended, of the first IPv4 [address] element of a [host] element
    whose status is [up]; and the list is no longer than the list of
    parsed hosts, which [main] reports as [discovered_count]. *)
Theorem imported_entries_come_from_up_hosts root t :
  Forall
    (fun e =>
       exists host ip,
         host ∈ Nmap.descendants "host" root
         /\ (Nmap.find_child "status" host ≫= fun x => Nmap.attrib x !! "state")
            = Some "up"
         /\ (Nmap.find_descendant_with "address" "addrtype" "ipv4" host
               ≫= fun x => Nmap.attrib x !! "addr") = Some ip
         /\ ip <> ""
         /\ e !! "address" = Some (ip +:+ "/24")
         /\ e !! "tenant" = Some t)
    (Nmap.format_for_netbox (Nmap.parse_nmap_xml root) t)
  /\ (length (Nmap.format_for_netbox (Nmap.parse_nmap_xml root) t)
      <= length (Nmap.parse_nmap_xml root))%nat.
Proof.
  split; [|apply length_omap_le].
  apply Forall_forall. intros e He.
  apply list_elem_of_omap in He as (h & Hh & Hentry).
  apply list_elem_of_omap in Hh as (host & Hin & Hhost).
  destruct (host_entry_up _ _ Hhost) as (Hup & _ & Hip & _).
  destruct (netbox_entry_fields _ _ _ Hentry) as (ip & Eip & Hne & Haddr & Ht & _).
  exists host, ip. rewrite <- Hip. auto 10.
Qed.

Example sample_scan_import :
  map (fun e : gmap string string => (e !! "address", e !! "dns_name", e !! "description"))
    (Nmap.format_for_netbox (Nmap.parse_nmap_xml Nmap.sample_scan) "acme")
  = [(Some "192.168.1.10/24", Some "printer",
      Some "Discovered via probe scan (MAC: AA:BB:CC:DD:EE:FF) [Acme]")]
  /\ length (Nmap.parse_nmap_xml Nmap.sample_scan) = 2%nat.
Proof. split; vm_compute; reflexivity. Qed.

(** * Properties of the system check *)

Lemma is_set_spec env var :
  Verify.is_set env var = true <-> exists v, env !! var = Some v /\ v <> "".
Proof.
  unfold Verify.is_set. destruct (env !! var) as [v|].
  - destruct (String.eqb_spec v ""); simpl; split.
    + discriminate.
    + intros (w & [= <-] & Hw). contradiction.
    + eauto.
    + reflexivity.
  - split; [discriminate|]. intros (v & [=] & _).
Qed.

(** X12: [check_environment_vars] succeeds exactly when [NETBOX_URL] and
    [NETBOX_TOKEN] are both set to a non-empty value; the three optional
    variables never make it fail. *)
Theorem check_environment_vars_required env :
  Verify.check_environment_vars env = true
  <-> (exists v, env !! "NETBOX_URL" = Some v /\ v <> "")
      /\ (exists v, env !! "NETBOX_TOKEN" = Some v /\ v <> "").
Proof.
  rewrite <- !is_set_spec.
  unfold Verify.check_environment_vars, Verify.required. simpl.
  destruct (Verify.is_set env "NETBOX_URL");
    destruct (Verify.is_set env "NETBOX_TOKEN");
    destruct (Verify.is_set env "GATEKEEPER_URL");
    destruct (Verify.is_set env "AWX_CALLBACK_URL");
    destruct (Verify.is_set env "PROXY_HOST"); simpl; intuition discriminate.
Qed.

Lemma passed_le results : (Verify.passed results <= length results)%nat.
Proof.
  unfold Verify.passed. induction results as [|[n []] rs IH]; simpl; lia.
Qed.

Lemma passed_all results :
  Verify.passed results = length results <-> Forall (fun r => r.2 = true) results.
Proof.
  induction results as [|[n b] rs IH]; simpl.
  - split; [constructor|reflexivity].
  - pose proof (passed_le rs) as Hle. unfold Verify.passed in *. simpl.
    destruct b; simpl; split.
    + intros [= H]. constructor; [reflexivity|now apply IH].
    + intros H. inversion H; subst. f_equal. now apply IH.
    + intros H. lia.
    + intros H. inversion H; subst. discriminate.
Qed.

(** X13: the exit code of [print_summary] is 0 exactly when every check
    passed, and 1 otherwise; with no check at all it is 0. *)
Theorem print_summary_exit_code results :
  (Verify.print_summary results = 0
   <-> Forall (fun r => r.2 = true) results)
  /\ (Verify.print_summary results = 0 \/ Verify.print_summary results = 1).
Proof.
  unfold Verify.print_summary. cbv zeta.
  destruct (Nat.eqb_spec (Verify.passed results) (length results)) as [E|E].
  - split; [|now left]. split; [intros _; now apply passed_all|reflexivity].
  - split; [|now right]. split; [discriminate|].
    intros H. now apply passed_all in H.
Qed.

(** * Properties of the first-boot script *)

(** ** Stripping and substituting *)

Lemma all_chars_lstrip P Q s :
  Str.all_chars Q s = true -> Str.all_chars Q (Bootstrap.lstrip P s) = true.
Proof.
  induction s as [|c s IH]; simpl; [reflexivity|].
  intros H. destruct (P c); [|exact H].
  apply andb_prop in H as [_ H]. now apply IH.
Qed.

Lemma all_chars_rstrip P Q s :
  Str.all_chars Q s = true -> Str.all_chars Q (Bootstrap.rstrip P s) = true.
Proof.
  induction s as [|c s IH]; simpl; [reflexivity|].
  intros [Hc Hs]%andb_prop. specialize (IH Hs).
  destruct (Bootstrap.rstrip P s) as [|x r].
  - destruct (P c); simpl; [reflexivity|]. now rewrite Hc.
  - change (Str.all_chars Q (String c (String x r)))
      with (Q c && Str.all_chars Q (String x r)).
    now rewrite Hc, IH.
Qed.

Lemma all_chars_strip P Q s :
  Str.all_chars Q s = true -> Str.all_chars Q (Bootstrap.strip P s) = true.
Proof. intros H. now apply all_chars_rstrip, all_chars_lstrip. Qed.

Lemma all_chars_sub_runs P Q b s :
  Q "_"%char = true ->
  Str.all_chars Q s = true -> Str.all_chars Q (Bootstrap.sub_runs P b s) = true.
Proof.
  intros HQ. revert b. induction s as [|c s IH]; intros b; simpl; [reflexivity|].
  intros [Hc Hs]%andb_prop.
  destruct (P c); [destruct b|]; simpl; rewrite ?HQ, ?Hc; simpl; now apply IH.
Qed.

Lemma sub_runs_class P b s :
  Str.all_chars (fun c => negb (P c) || Ascii.eqb c "_") (Bootstrap.sub_runs P b s)
  = true.
Proof.
  revert b. induction s as [|c s IH]; intros b; simpl; [reflexivity|].
  destruct (P c) eqn:Hc; [destruct b|]; simpl; rewrite ?Hc; simpl;
    try rewrite orb_true_r; apply IH.
Qed.

Lemma all_chars_impl (P Q : ascii -> bool) s :
  (forall c, P c = true -> Q c = true) ->
  Str.all_chars P s = true -> Str.all_chars Q s = true.
Proof.
  intros HPQ. induction s as [|c s IH]; simpl; [reflexivity|].
  intros [Hc Hs]%andb_prop. now rewrite (HPQ _ Hc), IH.
Qed.

Lemma all_chars_first P s c :
  Str.all_chars P s = true -> Bootstrap.first_char s = Some c -> P c = true.
Proof.
  destruct s as [|a s]; simpl; [discriminate|].
  intros [Ha _]%andb_prop [= <-]. exact Ha.
Qed.

Lemma all_chars_last P s c :
  Str.all_chars P s = true -> Bootstrap.last_char s = Some c -> P c = true.
Proof.
  induction s as [|a s IH]; [discriminate|].
  change (Str.all_chars P (String a s)) with (P a && Str.all_chars P s).
  intros [Ha Hs]%andb_prop. destruct s as [|b s].
  - intros [= <-]. exact Ha.
  - intros H. now apply IH.
Qed.

Lemma first_char_lstrip P s c :
  Bootstrap.first_char (Bootstrap.lstrip P s) = Some c -> P c = false.
Proof.
  induction s as [|a s IH]; simpl; [discriminate|].
  destruct (P a) eqn:Ha; [exact IH|]. now intros [= <-].
Qed.

Lemma first_char_rstrip P s c :
  Bootstrap.first_char (Bootstrap.rstrip P s) = Some c ->
  Bootstrap.first_char s = Some c.
Proof.
  destruct s as [|a s]; simpl; [discriminate|].
  destruct (Bootstrap.rstrip P s); [destruct (P a)|]; simpl; congruence.
Qed.

Lemma last_char_rstrip P s c :
  Bootstrap.last_char (Bootstrap.rstrip P s) = Some c -> P c = false.
Proof.
  induction s as [|a s IH]; simpl; [discriminate|].
  destruct (Bootstrap.rstrip P s) as [|x r].
  - destruct (P a) eqn:Ha; simpl; [discriminate|]. now intros [= <-].
  - exact IH.
Qed.

Lemma lstrip_fixed P s :
  (forall c, Bootstrap.first_char s = Some c -> P c = false) ->
  Bootstrap.lstrip P s = s.
Proof.
  destruct s as [|a s]; simpl; [reflexivity|].
  intros H. now rewrite (H a eq_refl).
Qed.

Lemma rstrip_fixed P s :
  (forall c, Bootstrap.last_char s = Some c -> P c = false) ->
  Bootstrap.rstrip P s = s.
Proof.
  induction s as [|a s IH]; [reflexivity|].
  intros H. cbn [Bootstrap.rstrip]. destruct s as [|b s].
  - simpl. now rewrite (H a eq_refl).
  - rewrite IH by exact H. reflexivity.
Qed.

Lemma sub_runs_fixed P b s :
  Str.all_chars (fun c => negb (P c)) s = true -> Bootstrap.sub_runs P b s = s.
Proof.
  revert b. induction s as [|c s IH]; intros b; simpl; [reflexivity|].
  intros [Hc Hs]%andb_prop. apply negb_true_iff in Hc. rewrite Hc.
  now rewrite IH.
Qed.

(** ** Runs of underscores *)

Lemma single_underscores_cons a s :
  Bootstrap.single_underscores (String a s)
  = match Bootstrap.first_char s with
    | Some b => negb (Bootstrap.is_underscore a && Bootstrap.is_underscore b)
    | None => true
    end && Bootstrap.single_underscores s.
Proof. destruct s; reflexivity. Qed.

Lemma first_char_sub_runs_in_run s c :
  Bootstrap.first_char (Bootstrap.sub_runs Bootstrap.is_underscore true s) = Some c ->
  Bootstrap.is_underscore c = false.
Proof.
  induction s as [|a s IH]; simpl; [discriminate|].
  destruct (Bootstrap.is_underscore a) eqn:Ha; [exact IH|].
  now intros [= <-].
Qed.

Lemma sub_runs_single b s :
  Bootstrap.single_underscores (Bootstrap.sub_runs Bootstrap.is_underscore b s)
  = true.
Proof.
  revert b. induction s as [|a s IH]; intros b; [reflexivity|].
  cbn [Bootstrap.sub_runs].
  destruct (Bootstrap.is_underscore a) eqn:Ha; [destruct b|].
  - apply IH.
  - rewrite single_underscores_cons, IH, andb_true_r.
    destruct (Bootstrap.first_char _) as [c|] eqn:Hc; [|reflexivity].
    rewrite (first_char_sub_runs_in_run _ _ Hc). now rewrite andb_false_r.
  - rewrite single_underscores_cons, IH, andb_true_r, Ha.
    now destruct (Bootstrap.first_char _).
Qed.

Lemma single_underscores_lstrip P s :
  Bootstrap.single_underscores s = true ->
  Bootstrap.single_underscores (Bootstrap.lstrip P s) = true.
Proof.
  induction s as [|a s IH]; [reflexivity|].
  intros H. cbn [Bootstrap.lstrip]. destruct (P a); [|exact H].
  rewrite single_underscores_cons in H. apply andb_prop in H as [_ H].
  now apply IH.
Qed.

Lemma single_underscores_rstrip P s :
  Bootstrap.single_underscores s = true ->
  Bootstrap.single_underscores (Bootstrap.rstrip P s) = true.
Proof.
  induction s as [|a s IH]; [reflexivity|].
  rewrite single_underscores_cons. intros [Ha Hs]%andb_prop.
  specialize (IH Hs). cbn [Bootstrap.rstrip].
  destruct (Bootstrap.rstrip P s) as [|x r] eqn:Hr.
  - now destruct (P a).
  - rewrite single_underscores_cons, IH, andb_true_r.
    assert (Hx : Bootstrap.first_char s = Some x).
    { apply (first_char_rstrip P). now rewrite Hr. }
    rewrite Hx in Ha. exact Ha.
Qed.

Lemma sub_runs_underscore_fixed b s :
  Bootstrap.single_underscores s = true ->
  (b = true -> forall c, Bootstrap.first_char s = Some c ->
                        Bootstrap.is_underscore c = false) ->
  Bootstrap.sub_runs Bootstrap.is_underscore b s = s.
Proof.
  revert b. induction s as [|a s IH]; intros b; [reflexivity|].
  rewrite single_underscores_cons. intros [Ha Hs]%andb_prop Hb.
  cbn [Bootstrap.sub_runs].
  destruct (Bootstrap.is_underscore a) eqn:Hu.
  - destruct b; [now rewrite (Hb eq_refl a eq_refl) in Hu|].
    apply Ascii.eqb_eq in Hu as ->. f_equal. apply IH; [exact Hs|].
    intros _ c Hc. rewrite Hc in Ha. simpl in Ha.
    now apply negb_true_iff in Ha.
  - f_equal. apply IH; [exact Hs|discriminate].
Qed.

Lemma prefix_one_underscore s :
  String.prefix "_" s
  = match Bootstrap.first_char s with
    | Some b => Bootstrap.is_underscore b
    | None => false
    end.
Proof.
  destruct s as [|b s]; [reflexivity|].
  change (String.prefix "_" (String b s))
    with (if ascii_dec "_" b then String.prefix "" s else false).
  unfold Bootstrap.first_char, Bootstrap.is_underscore.
  destruct (ascii_dec "_" b) as [<-|Hne].
  - now destruct s.
  - symmetry. apply Ascii.eqb_neq. congruence.
Qed.

Lemma prefix_two_underscores a s :
  String.prefix "__" (String a s)
  = Bootstrap.is_underscore a
    && match Bootstrap.first_char s with
       | Some b => Bootstrap.is_underscore b
       | None => false
       end.
Proof.
  change (String.prefix "__" (String a s))
    with (if ascii_dec "_" a then String.prefix "_" s else false).
  rewrite <- prefix_one_underscore. unfold Bootstrap.is_underscore.
  destruct (ascii_dec "_" a) as [<-|Hne]; [reflexivity|].
  assert (Ascii.eqb a "_" = false) as -> by (apply Ascii.eqb_neq; congruence).
  reflexivity.
Qed.

Lemma single_underscores_no_pair s :
  Bootstrap.single_underscores s = true -> Str.contains "__" s = false.
Proof.
  induction s as [|a s IH]; [reflexivity|].
  rewrite single_underscores_cons. intros [Ha Hs]%andb_prop.
  cbn [Str.contains]. rewrite (IH Hs), orb_false_r, prefix_two_underscores.
  destruct (Bootstrap.first_char s) as [b|]; [|apply andb_false_r].
  now apply negb_true_iff in Ha.
Qed.

(** ** Character classes *)

Lemma word_not_space c : Bootstrap.is_word c = true -> Bootstrap.is_space c = false.
Proof. destruct c as [[] [] [] [] [] [] [] []]; vm_compute; congruence. Qed.

Lemma lower_stable_all s :
  Str.all_chars (fun c => Ascii.eqb (Str.lower_char c) c) (Str.lower s) = true.
Proof.
  induction s as [|a s IH]; simpl; [reflexivity|].
  now rewrite lower_char_idempotent, Ascii.eqb_refl, IH.
Qed.

Lemma lower_stable_fixed s :
  Str.all_chars (fun c => Ascii.eqb (Str.lower_char c) c) s = true ->
  Str.lower s = s.
Proof.
  induction s as [|a s IH]; simpl; [reflexivity|].
  intros [Ha Hs]%andb_prop. apply Ascii.eqb_eq in Ha. now rewrite Ha, IH.
Qed.

(** ** Slugs *)

Lemma slugify_shape text :
  Str.all_chars Bootstrap.is_word (Bootstrap.slugify text) = true
  /\ Str.all_chars (fun c => Ascii.eqb (Str.lower_char c) c)
       (Bootstrap.slugify text) = true
  /\ Bootstrap.single_underscores (Bootstrap.slugify text) = true
  /\ (forall c, Bootstrap.first_char (Bootstrap.slugify text) = Some c ->
                Bootstrap.is_underscore c = false)
  /\ (forall c, Bootstrap.last_char (Bootstrap.slugify text) = Some c ->
                Bootstrap.is_underscore c = false).
Proof.
  unfold Bootstrap.slugify. destruct (String.eqb text "").
  { repeat split; try reflexivity; discriminate. }
  cbv zeta. unfold Bootstrap.strip at 1.
  set (t := Bootstrap.sub_runs Bootstrap.is_underscore false _).
  assert (Hword : Str.all_chars Bootstrap.is_word t = true).
  { apply all_chars_sub_runs; [reflexivity|].
    eapply all_chars_impl; [|apply sub_runs_class].
    intros c [H|H]%orb_prop.
    - apply negb_true_iff, negb_false_iff in H. exact H.
    - apply Ascii.eqb_eq in H as ->. reflexivity. }
  assert (Hlow : Str.all_chars (fun c => Ascii.eqb (Str.lower_char c) c) t = true).
  { do 2 (apply all_chars_sub_runs; [reflexivity|]).
    apply all_chars_strip, lower_stable_all. }
  split; [now apply all_chars_rstrip, all_chars_lstrip|].
  split; [now apply all_chars_rstrip, all_chars_lstrip|].
  split; [apply single_underscores_rstrip, single_underscores_lstrip, sub_runs_single|].
  split.
  - intros c Hc. apply first_char_rstrip in Hc.
    exact (first_char_lstrip _ _ _ Hc).
  - intros c. apply last_char_rstrip.
Qed.

Lemma slugify_fixed t :
  Str.all_chars Bootstrap.is_word t = true ->
  Str.all_chars (fun c => Ascii.eqb (Str.lower_char c) c) t = true ->
  Bootstrap.single_underscores t = true ->
  (forall c, Bootstrap.first_char t = Some c -> Bootstrap.is_underscore c = false) ->
  (forall c, Bootstrap.last_char t = Some c -> Bootstrap.is_underscore c = false) ->
  Bootstrap.slugify t = t.
Proof.
  intros Hword Hlow Hsingle Hfirst Hlast.
  unfold Bootstrap.slugify. destruct (String.eqb_spec t "") as [->|_]; [reflexivity|].
  cbv zeta. rewrite (lower_stable_fixed _ Hlow).
  assert (Hstrip : Bootstrap.strip Bootstrap.is_space t = t).
  { unfold Bootstrap.strip. rewrite lstrip_fixed.
    - apply rstrip_fixed. intros c Hc.
      apply word_not_space, (all_chars_last _ _ _ Hword Hc).
    - intros c Hc. apply word_not_space, (all_chars_first _ _ _ Hword Hc). }
  rewrite Hstrip.
  rewrite (sub_runs_fixed (fun c => negb (Bootstrap.is_word c)) false t).
  2:{ eapply all_chars_impl; [|exact Hword].
      intros c Hc. now rewrite Hc. }
  rewrite sub_runs_underscore_fixed by (auto || discriminate).
  unfold Bootstrap.strip. rewrite lstrip_fixed by exact Hfirst.
  now apply rstrip_fixed.
Qed.

(** X14: a slug made by [slugify] consists of word characters only, is in
    lower case, neither starts nor ends with an underscore and has no two
    underscores in a row. *)
Theorem slugify_is_a_slug text :
  Str.all_chars Bootstrap.is_word (Bootstrap.slugify text) = true
  /\ Str.lower (Bootstrap.slugify text) = Bootstrap.slugify text
  /\ Bootstrap.first_char (Bootstrap.slugify text) <> Some "_"%char
  /\ Bootstrap.last_char (Bootstrap.slugify text) <> Some "_"%char
  /\ Str.contains "__" (Bootstrap.slugify text) = false.
Proof.
  destruct (slugify_shape text) as (Hword & Hlow & Hsingle & Hfirst & Hlast).
  split; [exact Hword|]. split; [now apply lower_stable_fixed|].
  split; [intros H; now specialize (Hfirst _ H)|].
  split; [intros H; now specialize (Hlast _ H)|].
  now apply single_underscores_no_pair.
Qed.

(** X15: [slugify] is idempotent: a slug is its own slug. *)
Theorem slugify_idempotent text :
  Bootstrap.slugify (Bootstrap.slugify text) = Bootstrap.slugify text.
Proof.
  destruct (slugify_shape text) as (Hword & Hlow & Hsingle & Hfirst & Hlast).
  now apply slugify_fixed.
Qed.

Example slugify_tenant :
  Bootstrap.slugify "  Acme Corp -- West__Site!  " = "acme_corp_west_site"
  /\ Bootstrap.slugify "___" = "" /\ Bootstrap.slugify "" = "".
Proof. repeat split; reflexivity. Qed.

(** ** The client and the service *)

Lemma assigned_port_nonzero d p : assigned_port d = Some p -> p <> 0.
Proof.
  unfold assigned_port.
  destruct (dict_get CUSTOM_FIELD_NAME (custom_fields d)) as [|[]|z|s];
    simpl; try discriminate.
  - now intros [= <-].
  - destruct (Z.eqb_spec z 0); simpl; [discriminate|]. now intros [= <-].
  - destruct (negb _); discriminate.
Qed.

Lemma answered_port_nonzero nb now raw r nb' :
  request_port nb now raw = (Ok r, nb') -> port r <> 0.
Proof.
  intros H. apply request_port_ok_inv in H
    as (m & reg & dev & _ & _ & _ & [(d & p & _ & Hp & -> & _)|(_ & reg' & Ha & _)]).
  - simpl. exact (assigned_port_nonzero _ _ Hp).
  - apply assign_new_port_inv in Ha as (_ & _ & -> & _).
    pose proof (new_port_floor reg). unfold DEFAULT_START_PORT in *. lia.
Qed.

(** X16: the client accepts every port the service answers with: when
    [request_port] answers 200, [request_proxy_port] on that reply returns
    the port of the answer, which is never 0; on a reply with a status
    from 400 to 599, and when the request itself fails, it raises
    [RuntimeError]. *)
Theorem client_accepts_every_answer nb now raw r nb' :
  request_port nb now raw = (Ok r, nb') ->
  Bootstrap.request_proxy_port (Some (HTTP_200_OK, Bootstrap.to_json r))
  = Ok (port r)
  /\ port r <> 0
  /\ (forall code data,
        400 <= code < 600 ->
        Bootstrap.request_proxy_port (Some (code, data)) = Raise RuntimeError)
  /\ Bootstrap.request_proxy_port None = Raise RuntimeError.
Proof.
  intros H. pose proof (answered_port_nonzero _ _ _ _ _ H) as Hp.
  split; [|split; [exact Hp|split; [|reflexivity]]].
  - unfold Bootstrap.request_proxy_port, Bootstrap.to_json, dict_get. simpl.
    rewrite lookup_insert_ne by discriminate. rewrite lookup_insert_eq. simpl.
    now destruct (Z.eqb_spec (port r) 0).
  - intros code data [Hlo Hhi]. unfold Bootstrap.request_proxy_port.
    apply Z.leb_le in Hlo. apply Z.ltb_lt in Hhi. now rewrite Hlo, Hhi.
Qed.

Lemma client_accepts_every_answer_witness :
  exists r nb',
    request_port (Some three_probes) "2026-01-01T00:00:00" "aa:bb:cc:dd:ee:ff"
    = (Ok r, nb')
    /\ Bootstrap.request_proxy_port (Some (HTTP_200_OK, Bootstrap.to_json r))
       = Ok 10006.
Proof.
  eexists _, _. split; [reflexivity|].
  destruct (client_accepts_every_answer (Some three_probes)
              "2026-01-01T00:00:00" "aa:bb:cc:dd:ee:ff" _ _ eq_refl)
    as (H & _).
  exact H.
Defined.

(** * Properties of the disk installer *)

Lemma candidate_spec line nm sz :
  Install.candidate line = Some (nm, sz)
  <-> exists rest, Install.split line = nm :: sz :: "0" :: "disk" :: rest.
Proof.
  unfold Install.candidate. split.
  - destruct (Install.split line) as [|a [|b [|rm [|ty rest]]]];
      try discriminate.
    destruct (String.eqb_spec rm "0") as [->|Hrm];
      destruct (String.eqb_spec ty "disk") as [->|Hty]; simpl;
      try discriminate.
    intros [= -> ->]. eauto.
  - intros [rest ->]. reflexivity.
Qed.

Lemma collect_sound int lines ds d :
  Install.collect int lines = Ok ds -> d ∈ ds ->
  exists line sz,
    line ∈ lines /\ Install.candidate line = Some (Install.name d, sz)
    /\ int sz = Ok (Install.size d).
Proof.
  revert ds. induction lines as [|line rest IH]; intros ds; simpl.
  - intros [= <-] H. inversion H.
  - destruct (Install.candidate line) as [[nm sz]|] eqn:Hc.
    + destruct (int sz) as [n|] eqn:Hn; simpl; [|discriminate].
      destruct (Install.collect int rest) as [ds'|]; simpl; [|discriminate].
      intros [= <-] [->|Hd]%elem_of_cons.
      * exists line, sz. split; [apply list_elem_of_here|]. now split.
      * destruct (IH _ eq_refl Hd) as (l & s & Hl & H).
        exists l, s. split; [now apply list_elem_of_further|exact H].
    + intros Hds Hd. destruct (IH _ Hds Hd) as (l & s & Hl & H).
      exists l, s. split; [now apply list_elem_of_further|exact H].
Qed.

Lemma collect_complete int lines ds line nm sz :
  Install.collect int lines = Ok ds ->
  line ∈ lines -> Install.candidate line = Some (nm, sz) ->
  exists n, int sz = Ok n /\ Install.Disk nm n ∈ ds.
Proof.
  revert ds. induction lines as [|l rest IH]; intros ds; simpl.
  - intros _ H. inversion H.
  - intros Hds Hin Hc. destruct (Install.candidate l) as [[nm0 sz0]|] eqn:Hl.
    + destruct (int sz0) as [n0|] eqn:Hn; simpl in Hds; [|discriminate].
      destruct (Install.collect int rest) as [ds'|]; simpl in Hds; [|discriminate].
      injection Hds as <-.
      apply elem_of_cons in Hin as [->|Hin].
      * rewrite Hl in Hc. injection Hc as <- <-.
        exists n0. split; [exact Hn|apply list_elem_of_here].
      * destruct (IH _ eq_refl Hin Hc) as (n & Hn' & Hd).
        exists n. split; [exact Hn'|now apply list_elem_of_further].
    + apply elem_of_cons in Hin as [->|Hin]; [congruence|].
      exact (IH _ Hds Hin Hc).
Qed.

Lemma collect_raises int lines line nm sz e :
  line ∈ lines -> Install.candidate line = Some (nm, sz) -> int sz = Raise e ->
  exists e', Install.collect int lines = Raise e'.
Proof.
  induction lines as [|l rest IH]; simpl.
  - intros H. inversion H.
  - intros Hin Hc He. destruct (Install.collect int rest) as [ds'|e0] eqn:Hrest.
    + apply elem_of_cons in Hin as [->|Hin].
      * rewrite Hc, He. simpl. eauto.
      * destruct (IH Hin Hc He) as [e' [=]].
    + destruct (Install.candidate l) as [[nm0 sz0]|]; [|eauto].
      destruct (int sz0); simpl; eauto.
Qed.

Lemma collect_nothing int lines :
  (forall line, line ∈ lines -> Install.candidate line = None) ->
  Install.collect int lines = Ok [].
Proof.
  induction lines as [|l rest IH]; intros H; simpl; [reflexivity|].
  rewrite (H l (list_elem_of_here _ _)).
  apply IH. intros line Hl. apply H. now apply list_elem_of_further.
Qed.

Lemma insert_desc_elem x l y :
  y ∈ Install.insert_desc x l <-> y = x \/ y ∈ l.
Proof.
  induction l as [|z l IH]; simpl.
  - rewrite elem_of_cons. reflexivity.
  - destruct (Z.ltb _ _); rewrite !elem_of_cons, ?IH; tauto.
Qed.

Lemma sort_desc_elem l y : y ∈ Install.sort_desc l <-> y ∈ l.
Proof.
  induction l as [|x l IH]; simpl; [reflexivity|].
  rewrite insert_desc_elem, elem_of_cons, IH. reflexivity.
Qed.

Lemma insert_desc_head x l :
  (forall d r, l = d :: r -> forall y, y ∈ r -> Install.size y <= Install.size d) ->
  exists d r, Install.insert_desc x l = d :: r
              /\ forall y, y ∈ r -> Install.size y <= Install.size d.
Proof.
  intros Hl. destruct l as [|z l]; simpl.
  - exists x, []. split; [reflexivity|]. intros y Hy. inversion Hy.
  - specialize (Hl z l eq_refl).
    destruct (Z.ltb_spec (Install.size x) (Install.size z)).
    + exists z, (Install.insert_desc x l). split; [reflexivity|].
      intros y [->|Hy]%insert_desc_elem; [lia|now apply Hl].
    + exists x, (z :: l). split; [reflexivity|].
      intros y [->|Hy]%elem_of_cons; [lia|]. specialize (Hl y Hy). lia.
Qed.

Lemma sort_desc_head l d r :
  Install.sort_desc l = d :: r ->
  forall y, y ∈ r -> Install.size y <= Install.size d.
Proof.
  revert d r. induction l as [|x l IH]; intros d r; simpl; [discriminate|].
  intros E. destruct (insert_desc_head x (Install.sort_desc l) IH)
    as (d' & r' & E' & H).
  rewrite E in E'. injection E' as <- <-. exact H.
Qed.

(** X17: the disk that [get_internal_disk] returns is [/dev/] followed by
    the name of a line of the [lsblk] output whose third and fourth
    columns are [0] and [disk], and no such line has a larger size. *)
Theorem get_internal_disk_largest int lsblk path :
  Install.get_internal_disk int lsblk = Ok path ->
  exists line nm sz rest n,
    line ∈ Install.splitlines lsblk
    /\ Install.split line = nm :: sz :: "0" :: "disk" :: rest
    /\ int sz = Ok n
    /\ path = "/dev/" +:+ nm
    /\ forall line' nm' sz' rest' n',
         line' ∈ Install.splitlines lsblk ->
         Install.split line' = nm' :: sz' :: "0" :: "disk" :: rest' ->
         int sz' = Ok n' -> n' <= n.
Proof.
  unfold Install.get_internal_disk.
  destruct (Install.collect int (Install.splitlines lsblk)) as [ds|] eqn:Hds;
    simpl; [|discriminate].
  destruct (Install.sort_desc ds) as [|d r] eqn:Hsort; [discriminate|].
  intros [= <-].
  assert (Hd : d ∈ ds) by (apply sort_desc_elem; rewrite Hsort; apply list_elem_of_here).
  destruct (collect_sound _ _ _ _ Hds Hd) as (line & sz & Hline & Hc & Hn).
  apply candidate_spec in Hc as [rest Hsplit].
  exists line, (Install.name d), sz, rest, (Install.size d).
  repeat split; try assumption.
  intros line' nm' sz' rest' n' Hline' Hsplit' Hn'.
  assert (Hc' : Install.candidate line' = Some (nm', sz'))
    by (apply candidate_spec; eauto).
  destruct (collect_complete _ _ _ _ _ _ Hds Hline' Hc') as (n0 & Hn0 & Hin).
  assert (n0 = n') as -> by congruence.
  apply sort_desc_elem in Hin. rewrite Hsort in Hin.
  apply elem_of_cons in Hin as [<-|Hin]; [simpl; lia|].
  exact (sort_desc_head _ _ _ Hsort _ Hin).
Qed.

Lemma get_internal_disk_largest_witness :
  Install.get_internal_disk Install.sample_int Install.sample_lsblk
  = Ok "/dev/nvme0n1"
  /\ exists line nm sz rest,
       line ∈ Install.splitlines Install.sample_lsblk
       /\ Install.split line = nm :: sz :: "0" :: "disk" :: rest
       /\ "/dev/nvme0n1" = "/dev/" +:+ nm.
Proof.
  split; [reflexivity|].
  destruct (get_internal_disk_largest Install.sample_int Install.sample_lsblk
              "/dev/nvme0n1" eq_refl)
    as (line & nm & sz & rest & n & Hline & Hsplit & _ & Hpath & _).
  exists line, nm, sz, rest. auto.
Defined.

(** X18: [get_internal_disk] raises [RuntimeError] when no line of the
    output describes a non-removable disk, as on an empty output; and it
    raises, rather than skipping the line, when the size of such a line is
    not accepted by [int]. *)
Theorem get_internal_disk_errors int lsblk :
  ((forall line, line ∈ Install.splitlines lsblk ->
                 Install.candidate line = None) ->
   Install.get_internal_disk int lsblk = Raise RuntimeError)
  /\ (forall line nm sz rest e,
        line ∈ Install.splitlines lsblk ->
        Install.split line = nm :: sz :: "0" :: "disk" :: rest ->
        int sz = Raise e ->
        exists e', Install.get_internal_disk int lsblk = Raise e')
  /\ Install.get_internal_disk int "" = Raise RuntimeError.
Proof.
  split; [|split; [|reflexivity]].
  - intros H. unfold Install.get_internal_disk.
    now rewrite (collect_nothing _ _ H).
  - intros line nm sz rest e Hline Hsplit He.
    assert (Hc : Install.candidate line = Some (nm, sz))
      by (apply candidate_spec; eauto).
    destruct (collect_raises _ _ _ _ _ _ Hline Hc He) as [e' He'].
    exists e'. unfold Install.get_internal_disk. now rewrite He'.
Qed.

Lemma get_internal_disk_errors_witness :
  Install.get_internal_disk Install.sample_int "sr0 1073741312 1 rom"
  = Raise RuntimeError
  /\ exists e, Install.get_internal_disk Install.sample_int "sda 2T 0 disk"
               = Raise e.
Proof.
  destruct (get_internal_disk_errors Install.sample_int "sr0 1073741312 1 rom")
    as (Hnone & _).
  destruct (get_internal_disk_errors Install.sample_int "sda 2T 0 disk")
    as (_ & Hbad & _).
  split.
  - apply Hnone. intros line [->|H]%elem_of_cons; [reflexivity|inversion H].
  - apply (Hbad "sda 2T 0 disk" "sda" "2T" [] ValueError);
      [apply list_elem_of_here|reflexivity..].
Defined.

(** * Properties of the configuration reader *)

Lemma string_app_assoc (a b c : string) : (a +:+ b) +:+ c = a +:+ (b +:+ c).
Proof.
  induction a as [|x a IH]; [reflexivity|].
  change (String x ((a +:+ b) +:+ c) = String x (a +:+ (b +:+ c))).
  now rewrite IH.
Qed.

Lemma rstrip_app_keep P v w :
  Bootstrap.rstrip P w <> "" ->
  Bootstrap.rstrip P (v +:+ w) = v +:+ Bootstrap.rstrip P w.
Proof.
  intros Hw. induction v as [|c v IH]; [reflexivity|].
  change (String c v +:+ w) with (String c (v +:+ w)).
  cbn [Bootstrap.rstrip]. rewrite IH.
  change (String c v +:+ Bootstrap.rstrip P w)
    with (String c (v +:+ Bootstrap.rstrip P w)).
  destruct (v +:+ Bootstrap.rstrip P w) as [|x r] eqn:E; [|reflexivity].
  destruct v as [|y v]; [contradiction|].
  change (String y v +:+ Bootstrap.rstrip P w)
    with (String y (v +:+ Bootstrap.rstrip P w)) in E. discriminate.
Qed.

Lemma rstrip_app_strip P s c :
  P c = true ->
  Bootstrap.rstrip P (s +:+ String c "") = Bootstrap.rstrip P s.
Proof.
  intros Hc. induction s as [|a s IH]; [simpl; now rewrite Hc|].
  change (String a s +:+ String c "") with (String a (s +:+ String c "")).
  cbn [Bootstrap.rstrip]. now rewrite IH.
Qed.

Lemma last_char_app_single s c :
  Bootstrap.last_char (s +:+ String c "") = Some c.
Proof.
  induction s as [|a s IH]; [reflexivity|].
  change (String a s +:+ String c "") with (String a (s +:+ String c "")).
  cbn [Bootstrap.last_char]. rewrite IH.
  now destruct (s +:+ String c "") eqn:E; [destruct s|].
Qed.

Lemma split_first_app sep key rest :
  Str.all_chars (fun c => negb (Ascii.eqb c sep)) key = true ->
  Bootstrap.split_first sep (key +:+ String sep rest) = Some (key, rest).
Proof.
  induction key as [|c key IH].
  - intros _. change ("" +:+ String sep rest) with (String sep rest).
    simpl. now rewrite Ascii.eqb_refl.
  - change (String c key +:+ String sep rest)
      with (String c (key +:+ String sep rest)).
    cbn [Str.all_chars Bootstrap.split_first].
    intros [Hc Hk]%andb_prop. apply negb_true_iff in Hc.
    now rewrite Hc, IH.
Qed.

Lemma prefix_hash s :
  String.prefix "#" s
  = match Bootstrap.first_char s with
    | Some b => Ascii.eqb b "#"
    | None => false
    end.
Proof.
  destruct s as [|b s]; [reflexivity|].
  change (String.prefix "#" (String b s))
    with (if ascii_dec "#" b then String.prefix "" s else false).
  unfold Bootstrap.first_char.
  destruct (ascii_dec "#" b) as [<-|Hne].
  - now destruct s.
  - symmetry. apply Ascii.eqb_neq. congruence.
Qed.

Lemma strip_fixed_all P s :
  Str.all_chars (fun c => negb (P c)) s = true -> Bootstrap.strip P s = s.
Proof.
  intros H. unfold Bootstrap.strip. rewrite lstrip_fixed.
  - apply rstrip_fixed. intros c Hc.
    apply negb_true_iff, (all_chars_last _ _ _ H Hc).
  - intros c Hc. apply negb_true_iff, (all_chars_first _ _ _ H Hc).
Qed.

(** Stripping the quotes that surround a value. *)
Lemma strip_quoted value :
  (forall c, Bootstrap.first_char value = Some c -> Bootstrap.is_quote c = false) ->
  (forall c, Bootstrap.last_char value = Some c -> Bootstrap.is_quote c = false) ->
  Bootstrap.strip Bootstrap.is_quote
    (Bootstrap.strip Bootstrap.is_space
       (String "034" (value +:+ String "034" "")))
  = value.
Proof.
  intros Hfirst Hlast.
  assert (Hinner : Bootstrap.strip Bootstrap.is_space
                     (String "034" (value +:+ String "034" ""))
                   = String "034" (value +:+ String "034" "")).
  { unfold Bootstrap.strip. cbn [Bootstrap.lstrip]. simpl Bootstrap.is_space.
    cbv iota. apply rstrip_fixed. intros c Hc.
    change (String "034" (value +:+ String "034" ""))
      with (String "034" value +:+ String "034" "") in Hc.
    rewrite last_char_app_single in Hc. now injection Hc as <-. }
  rewrite Hinner. unfold Bootstrap.strip.
  assert (Hq : Bootstrap.lstrip Bootstrap.is_quote
                 (String "034" (value +:+ String "034" ""))
               = Bootstrap.lstrip Bootstrap.is_quote (value +:+ String "034" ""))
    by reflexivity.
  rewrite Hq. destruct value as [|a value]; [reflexivity|].
  assert (Hv : Bootstrap.lstrip Bootstrap.is_quote
                 (String a value +:+ String "034" "")
               = String a value +:+ String "034" "").
  { change (String a value +:+ String "034" "")
      with (String a (value +:+ String "034" "")).
    cbn [Bootstrap.lstrip]. now rewrite (Hfirst a eq_refl). }
  rewrite Hv, rstrip_app_strip by reflexivity.
  now apply rstrip_fixed.
Qed.

(** What [read_line] makes of a line in the usual form. *)
Lemma read_line_standard vars key value :
  Str.all_chars
    (fun c => negb (Bootstrap.is_space c) && negb (Ascii.eqb c "=")) key = true ->
  (exists c, Bootstrap.first_char key = Some c /\ Ascii.eqb c "#" = false) ->
  (forall c, Bootstrap.first_char value = Some c -> Bootstrap.is_quote c = false) ->
  (forall c, Bootstrap.last_char value = Some c -> Bootstrap.is_quote c = false) ->
  Bootstrap.read_line vars (Bootstrap.config_line key value)
  = if String.eqb key "TENANT_NAME"
    then Bootstrap.ConfigVars (Some value) (Bootstrap.tenant_slug vars)
           (Bootstrap.site_name vars) (Bootstrap.site_slug vars)
    else if String.eqb key "TENANT_SLUG"
    then Bootstrap.ConfigVars (Bootstrap.tenant_name vars) (Some value)
           (Bootstrap.site_name vars) (Bootstrap.site_slug vars)
    else if String.eqb key "SITE_NAME"
    then Bootstrap.ConfigVars (Bootstrap.tenant_name vars)
           (Bootstrap.tenant_slug vars) (Some value) (Bootstrap.site_slug vars)
    else if String.eqb key "SITE_SLUG"
    then Bootstrap.ConfigVars (Bootstrap.tenant_name vars)
           (Bootstrap.tenant_slug vars) (Bootstrap.site_name vars) (Some value)
    else vars.
Proof.
  intros Hkey (k0 & Hk0 & Hhash) Hfirst Hlast.
  assert (Hnospace : Str.all_chars (fun c => negb (Bootstrap.is_space c)) key = true).
  { eapply all_chars_impl; [|exact Hkey]. now intros c [H _]%andb_prop. }
  assert (Hnoeq : Str.all_chars (fun c => negb (Ascii.eqb c "=")) key = true).
  { eapply all_chars_impl; [|exact Hkey]. now intros c [_ H]%andb_prop. }
  set (R := String "034" (value +:+ String "034" "")).
  assert (Hline : Bootstrap.strip Bootstrap.is_space (Bootstrap.config_line key value)
                  = key +:+ String "=" R).
  { unfold Bootstrap.config_line, Bootstrap.strip.
    change (key +:+ "=" +:+ String "034" value +:+ String "034" (String "010" ""))
      with (key +:+ (String "=" (String "034" value)
                       +:+ String "034" (String "010" ""))).
    rewrite <- string_app_assoc, lstrip_fixed.
    - rewrite rstrip_app_keep by (simpl; discriminate).
      simpl Bootstrap.rstrip. now rewrite string_app_assoc.
    - destruct key as [|c key]; [discriminate|].
      intros c' [= <-]. simpl in Hnospace.
      apply andb_prop in Hnospace as [H _]. now apply negb_true_iff. }
  unfold Bootstrap.read_line. cbv zeta. rewrite Hline.
  assert (String.eqb (key +:+ String "=" R) "" = false) as ->
    by (destruct key; reflexivity).
  rewrite prefix_hash.
  assert (Bootstrap.first_char (key +:+ String "=" R) = Some k0) as ->
    by (destruct key; [discriminate|exact Hk0]).
  rewrite Hhash. cbn [orb].
  rewrite (split_first_app _ _ _ Hnoeq), (strip_fixed_all _ _ Hnospace).
  unfold R. now rewrite (strip_quoted _ Hfirst Hlast).
Qed.

(** X19: a configuration line written in the usual form, the key, [=] and
    the value between double quotes, is read back as that value, for each
    of the four keys and every value that neither starts nor ends with a
    quote character; the other variables keep what they held. *)
Theorem config_line_round_trip vars value :
  (forall c, Bootstrap.first_char value = Some c -> Bootstrap.is_quote c = false) ->
  (forall c, Bootstrap.last_char value = Some c -> Bootstrap.is_quote c = false) ->
  Bootstrap.read_line vars (Bootstrap.config_line "TENANT_NAME" value)
  = Bootstrap.ConfigVars (Some value) (Bootstrap.tenant_slug vars)
      (Bootstrap.site_name vars) (Bootstrap.site_slug vars)
  /\ Bootstrap.read_line vars (Bootstrap.config_line "TENANT_SLUG" value)
     = Bootstrap.ConfigVars (Bootstrap.tenant_name vars) (Some value)
         (Bootstrap.site_name vars) (Bootstrap.site_slug vars)
  /\ Bootstrap.read_line vars (Bootstrap.config_line "SITE_NAME" value)
     = Bootstrap.ConfigVars (Bootstrap.tenant_name vars)
         (Bootstrap.tenant_slug vars) (Some value) (Bootstrap.site_slug vars)
  /\ Bootstrap.read_line vars (Bootstrap.config_line "SITE_SLUG" value)
     = Bootstrap.ConfigVars (Bootstrap.tenant_name vars)
         (Bootstrap.tenant_slug vars) (Bootstrap.site_name vars) (Some value).
Proof.
  intros Hfirst Hlast.
  repeat split;
    (rewrite read_line_standard; [reflexivity|reflexivity| |exact Hfirst|exact Hlast];
     eexists; split; reflexivity).
Qed.

Lemma config_line_round_trip_witness :
  Bootstrap.read_line Bootstrap.no_vars
    (Bootstrap.config_line "TENANT_NAME" "Acme = 'West' Corp")
  = Bootstrap.ConfigVars (Some "Acme = 'West' Corp") None None None.
Proof.
  apply (config_line_round_trip Bootstrap.no_vars "Acme = 'West' Corp").
  - intros c [= <-]. reflexivity.
  - intros c [= <-]. reflexivity.
Defined.

(** ** From the file to the answer *)

(** When one path alone exists and what it holds settles the answer, this
    is the answer of the loop over the paths. *)
Lemma read_paths_single title fs path lines ans :
  (forall p, p <> path -> fs p = None) ->
  fs path = Some (lines, true) ->
  forall paths vars,
    path ∈ paths ->
    Bootstrap.resolve title (fold_left Bootstrap.read_line lines vars) = Some ans ->
    Bootstrap.read_paths title fs vars paths = Ok ans.
Proof.
  intros Hother Hpath paths. induction paths as [|p paths IH]; intros vars Hin Hans.
  - inversion Hin.
  - cbn [Bootstrap.read_paths]. destruct (decide (p = path)) as [->|Hne].
    + now rewrite Hpath, Hans.
    + rewrite (Hother p Hne). apply IH; [|exact Hans].
      apply elem_of_cons in Hin as [Heq|Hin]; [congruence|exact Hin].
Qed.

Lemma truthy_some s : s <> "" -> Nmap.truthy (Some s) = true.
Proof.
  intros Hs. simpl. apply negb_true_iff, String.eqb_neq, Hs.
Qed.

Lemma rstrip_head P c s :
  P c = false -> exists r, Bootstrap.rstrip P (String c s) = String c r.
Proof.
  intros Hc. cbn [Bootstrap.rstrip]. rewrite Hc.
  destruct (Bootstrap.rstrip P s); eauto.
Qed.

(** A line that starts with [#] is skipped. *)
Lemma read_line_comment vars line :
  String.prefix "#" line = true -> Bootstrap.read_line vars line = vars.
Proof.
  rewrite prefix_hash. destruct line as [|c line]; [discriminate|].
  cbn [Bootstrap.first_char]. intros ->%Ascii.eqb_eq.
  unfold Bootstrap.read_line, Bootstrap.strip. cbv zeta.
  cbn [Bootstrap.lstrip]. change (Bootstrap.is_space "#") with false. cbv iota.
  destruct (rstrip_head Bootstrap.is_space "#" line eq_refl) as [r ->].
  change (String.eqb (String "#" r) "") with false.
  now rewrite prefix_hash.
Qed.

Lemma read_comments vars comments :
  Forall (fun line => String.prefix "#" line = true) comments ->
  fold_left Bootstrap.read_line comments vars = vars.
Proof.
  induction 1 as [|line comments Hline _ IH]; [reflexivity|].
  cbn [fold_left]. now rewrite (read_line_comment _ _ Hline).
Qed.

(** X20: from the file to the answer of [read_config]: when the one
    configuration file that exists, at any of the four paths, names the
    tenant alone, below any number of comment lines, the site is the
    tenant and both slugs are the slug of the tenant's name; when it names
    the tenant and the site, each slug is the slug of its own name.  When
    no file exists, [read_config] raises [RuntimeError]. *)
Theorem read_config_derives_slugs title fs path comments tn :
  path ∈ Bootstrap.CONFIG_PATHS ->
  (forall p, p <> path -> fs p = None) ->
  Forall (fun line => String.prefix "#" line = true) comments ->
  tn <> "" ->
  (forall c, Bootstrap.first_char tn = Some c -> Bootstrap.is_quote c = false) ->
  (forall c, Bootstrap.last_char tn = Some c -> Bootstrap.is_quote c = false) ->
  (fs path = Some (comments ++ [Bootstrap.config_line "TENANT_NAME" tn], true) ->
   Bootstrap.read_config title fs
   = Ok (tn, Bootstrap.slugify tn, tn, Bootstrap.slugify tn))
  /\ (forall sn,
        sn <> "" ->
        (forall c, Bootstrap.first_char sn = Some c -> Bootstrap.is_quote c = false) ->
        (forall c, Bootstrap.last_char sn = Some c -> Bootstrap.is_quote c = false) ->
        fs path = Some (comments ++ [Bootstrap.config_line "TENANT_NAME" tn;
                                     Bootstrap.config_line "SITE_NAME" sn], true) ->
        Bootstrap.read_config title fs
        = Ok (tn, Bootstrap.slugify tn, sn, Bootstrap.slugify sn))
  /\ (fs path = None ->
      Bootstrap.read_config title fs = Raise RuntimeError).
Proof.
  intros Hin Hother Hcomments Htn Hf Hl. split; [|split].
  - intros Hpath. unfold Bootstrap.read_config.
    apply (read_paths_single _ _ _ _ _ Hother Hpath _ _ Hin).
    rewrite fold_left_app, (read_comments _ _ Hcomments). cbn [fold_left].
    rewrite read_line_standard;
      [|reflexivity|eexists; split; reflexivity|exact Hf|exact Hl].
    cbn [String.eqb Ascii.eqb Bool.eqb]. unfold Bootstrap.resolve.
    cbn [Bootstrap.tenant_name Bootstrap.tenant_slug Bootstrap.site_name
         Bootstrap.site_slug Bootstrap.no_vars].
    rewrite (truthy_some _ Htn). reflexivity.
  - intros sn Hsn Hsf Hsl Hpath. unfold Bootstrap.read_config.
    apply (read_paths_single _ _ _ _ _ Hother Hpath _ _ Hin).
    rewrite fold_left_app, (read_comments _ _ Hcomments). cbn [fold_left].
    rewrite (read_line_standard Bootstrap.no_vars "TENANT_NAME" tn);
      [|reflexivity|eexists; split; reflexivity|exact Hf|exact Hl].
    rewrite read_line_standard;
      [|reflexivity|eexists; split; reflexivity|exact Hsf|exact Hsl].
    cbn [String.eqb Ascii.eqb Bool.eqb]. unfold Bootstrap.resolve.
    cbn [Bootstrap.tenant_name Bootstrap.tenant_slug Bootstrap.site_name
         Bootstrap.site_slug Bootstrap.no_vars].
    rewrite (truthy_some _ Htn), (truthy_some _ Hsn). reflexivity.
  - intros Hpath.
    assert (Hnone : forall p, fs p = None).
    { intros p. destruct (decide (p = path)) as [->|Hne]; [exact Hpath|].
      now apply Hother. }
    unfold Bootstrap.read_config, Bootstrap.CONFIG_PATHS.
    cbn [Bootstrap.read_paths]. now rewrite !Hnone.
Qed.

Lemma read_config_derives_slugs_witness :
  Bootstrap.read_config (fun s => s) Bootstrap.live_medium
  = Ok ("Acme Corp", "acme_corp", "Acme Corp", "acme_corp").
Proof.
  refine (proj1 (read_config_derives_slugs (fun s => s) Bootstrap.live_medium
                   "/run/live/medium/probe_config.txt"
                   ["# probe configuration" +:+ String "010" ""]
                   "Acme Corp" _ _ _ _ _ _) _).
  - unfold Bootstrap.CONFIG_PATHS. apply list_elem_of_further, list_elem_of_here.
  - intros p Hp. unfold Bootstrap.live_medium.
    destruct (String.eqb_spec p "/run/live/medium/probe_config.txt");
      [contradiction|reflexivity].
  - repeat constructor.
  - discriminate.
  - intros c [= <-]. reflexivity.
  - intros c [= <-]. reflexivity.
  - reflexivity.
Defined.
